(** * omero_basics: connection bootstrap, query unwrapping and CSV output

    A shallow embedding of [omero_scripts/omero_basics.py] (Python 2) and the
    properties of it that the design note relies on.

    Python objects that the module only passes around are values of [pyval];
    the interpreter's control flow ([raise], [sys.exit]) is an [outcome];
    everything the module does to the outside world (session store, file
    system, standard error, the Blitz gateway) goes through a state-and-error
    monad over an explicit [world]. *)

From Stdlib Require Import ZArith String Ascii List Bool Lia DecimalString.
From Stdlib Require DecimalZ DecimalPos.
Import ListNotations.

Local Open Scope string_scope.
Local Open Scope Z_scope.

(** ** Values *)

(** The scalars that flow through the module: [None], integers and byte
    strings. *)
Inductive pyval : Type :=
| PNone
| PInt (z : Z)
| PStr (s : string).

Definition is_None (v : pyval) : bool :=
  match v with PNone => true | _ => false end.

(** [str(n)] and ['%i' % n] on an integer: optional minus sign, decimal
    digits. *)
Definition str_of_int (z : Z) : string :=
  NilZero.string_of_int (Z.to_int z).

(** ** Exceptions and the monad *)

Inductive exn : Type :=
| SystemExit (code : Z)
| ValueError (msg : string)
| CsvError (msg : string)
| OSError (path : string)
| IOError (path : string)
| TypeError (msg : string)
| OverflowError (msg : string)
| ParsingError (path : string)
| NoSectionError (section : string)
| NoOptionError (option section : string)
| AttributeError (msg : string)
| ServiceError (msg : string).

Inductive outcome (A : Type) : Type :=
| Return (a : A)
| Raise (e : exn).

Arguments Return {A} a.
Arguments Raise {A} e.

(** A computation over a state [S] that ends normally or by an exception; the
    state reached is kept in both cases, as side effects done before a
    [raise] stay done. *)
Definition M (S A : Type) : Type := S -> outcome A * S.

Definition ret {S A} (a : A) : M S A := fun s => (Return a, s).

Definition bind {S A B} (c : M S A) (k : A -> M S B) : M S B :=
  fun s =>
    match c s with
    | (Return a, s') => k a s'
    | (Raise e, s') => (Raise e, s')
    end.

Definition raise {S A} (e : exn) : M S A := fun s => (Raise e, s).

Definition get {S} : M S S := fun s => (Return s, s).

Definition modify {S} (f : S -> S) : M S unit := fun s => (Return tt, f s).

Definition of_outcome {S A} (o : outcome A) : M S A := fun s => (o, s).

(** Run a computation on one component of a pair state. *)
Definition in_snd {S T A} (c : M T A) : M (S * T) A :=
  fun st =>
    let '(r, t') := c (snd st) in (r, (fst st, t')).

Declare Scope py_scope.
Delimit Scope py_scope with py.

Notation "x <- c ;; k" := (bind c (fun x => k))
  (at level 100, c at next level, right associativity) : py_scope.
Notation "c ;; k" := (bind c (fun _ => k))
  (at level 100, right associativity) : py_scope.

Local Open Scope py_scope.

(** [if cond: body] with no [else]. *)
Definition when {S} (cond : bool) (body : M S unit) : M S unit :=
  if cond then body else ret tt.

(** [for x in xs: body x]. *)
Fixpoint for_each {S A} (xs : list A) (body : A -> M S unit) : M S unit :=
  match xs with
  | [] => ret tt
  | x :: xs' => body x ;; for_each xs' body
  end.

(** ** well_from_row_col *)

(** The largest C [long], [sys.maxint], of a build of CPython 2 with a
    64-bit [long] (Linux, macOS); a build with a 32-bit [long] has
    [2^31 - 1]. *)
Definition sys_maxint : Z := 2 ^ 63 - 1.

(** [chr(i)] on an integer: the argument is first converted to a C [long],
    which fails with [OverflowError] when it does not fit, and is then
    required to lie in [0..255]. *)
Definition chr (i : Z) : outcome string :=
  if (0 <=? i) && (i <? 256)
  then Return (String (ascii_of_N (Z.to_N i)) EmptyString)
  else if (- sys_maxint - 1 <=? i) && (i <=? sys_maxint)
  then Raise (ValueError "chr() arg not in range(256)")
  else Raise (OverflowError "Python int too large to convert to C long").

(** [well_from_row_col] on integer arguments (Python [int] or [long]), the
    well indices the database holds: there [int(row)] is [row] and [%i]
    prints [column + 1] in decimal. Arguments of other types, which the
    code would convert or reject, are outside this definition. *)
Definition well_from_row_col (row column : Z) : outcome string :=
  match chr (65 + row) with
  | Return letter => Return (letter ++ str_of_int (column + 1))
  | Raise e => Raise e
  end.

Definition uppercase : string := "ABCDEFGHIJKLMNOPQRSTUVWXYZ".


(** ** The outside world *)

(** What [os.stat] and [open] see at a path. *)
Record file : Type := mkfile {
  is_regular : bool;
  st_mode : Z;
  data : string
}.

(** A parsed INI file as [RawConfigParser] holds it: the [DEFAULT] options
    and the named sections, option names already lower-cased. *)
Record ini : Type := mkini {
  defaults : list (string * string);
  sections : list (string * list (string * string))
}.

(** A typed cell of a projection result, [omero.rtypes]: an object with a
    [val] attribute. A null cell is Python's [None], here [option]'s. *)
Record rtype : Type := wrap { val : pyval }.

Definition result_set : Type := list (list (option rtype)).

Inductive params : Type :=
| ParametersI (named : list (string * pyval)).

(** Calls that leave the process, in the order they are made. *)
Inductive event : Type :=
| os_path_exists_call (path : string)
| os_path_isfile_call (path : string)
| os_stat_call (path : string)
| config_read_call (path : string)
| BlitzGateway_call (id : nat) (username passwd host port : pyval)
| gateway_connect_call (id : nat) (sUuid : pyval)
| seppuku_call (id : nat) (softclose : bool)
| setOmeroGroup_call (id : nat) (group : Z)
| getQueryService_call (id : nat)
| projection_call (id : nat) (query : string) (p : params) (group : Z).

(** The collaborators the module calls but does not define. *)
Record env : Type := mkenv {
  (** [SessionsStore().get_current()]: (host, name, uuid, port), each
      [None] when the store has none. *)
  get_current : pyval * pyval * pyval * pyval;
  (** [os.path.expanduser]. *)
  expanduser : string -> string;
  (** [RawConfigParser]'s parser on the bytes of a file; [None] when it
      raises a parsing error. *)
  parse_ini : string -> option ini;
  (** [int] on a string; [None] when it raises [ValueError]. *)
  int_of_str : string -> option Z;
  (** Whether the server accepts [BlitzGateway(username, passwd, host,
      port).connect(sUuid)]. *)
  server_accepts : pyval -> pyval -> pyval -> pyval -> pyval -> bool;
  (** The query service's [projection(query, params, opts)], [opts]
      carrying the group. *)
  server_projection : string -> params -> Z -> outcome result_set
}.

Record world : Type := mkworld {
  fs : string -> option file;
  umask : Z;
  stderr : string;
  next_id : nat;
  trace : list event
}.

Definition log (e : event) : M world unit :=
  modify (fun w => mkworld (fs w) (umask w) (stderr w) (next_id w)
                           (trace w ++ [e])).

Definition sys_stderr_write (s : string) : M world unit :=
  modify (fun w => mkworld (fs w) (umask w) (stderr w ++ s) (next_id w)
                           (trace w)).

Definition sys_exit {A} (code : Z) : M world A := raise (SystemExit code).

(** [os.path.exists]: the path can be stat-ed. *)
Definition os_path_exists (path : string) : M world bool :=
  log (os_path_exists_call path) ;;
  w <- get ;;
  ret (match fs w path with Some _ => true | None => false end).

(** [os.path.isfile]: the path can be stat-ed and is a regular file. *)
Definition os_path_isfile (path : string) : M world bool :=
  log (os_path_isfile_call path) ;;
  w <- get ;;
  ret (match fs w path with Some f => is_regular f | None => false end).

Definition os_stat (path : string) : M world file :=
  log (os_stat_call path) ;;
  w <- get ;;
  match fs w path with
  | Some f => ret f
  | None => raise (OSError path)
  end.

Definition set_file (path : string) (f : file) (w : world) : world :=
  mkworld (fun p => if String.eqb p path then Some f else fs w p)
          (umask w) (stderr w) (next_id w) (trace w).

Definition slash : ascii := ascii_of_N 47.

Fixpoint drop_while {A} (f : A -> bool) (l : list A) : list A :=
  match l with
  | [] => []
  | x :: l' => if f x then drop_while f l' else l
  end.

(** [posixpath.dirname]: the path up to its last slash, without trailing
    slashes unless it consists of slashes only. *)
Definition dirname (path : string) : string :=
  let head :=
    drop_while (fun c => negb (Ascii.eqb c slash))
               (rev (list_ascii_of_string path)) in
  let stripped := drop_while (fun c => Ascii.eqb c slash) head in
  string_of_list_ascii
    (rev (match stripped with [] => head | _ => stripped end)).

Definition ends_with_slash (path : string) : bool :=
  match rev (list_ascii_of_string path) with
  | c :: _ => Ascii.eqb c slash
  | [] => false
  end.

Definition nul_byte_message : string :=
  "file() argument 1 must be encoded string without NULL bytes, "
  ++ "not str".

Definition has_nul (path : string) : bool :=
  existsb (fun c => Ascii.eqb c (ascii_of_N 0)) (list_ascii_of_string path).

(** A directory: not a regular file, and [S_ISDIR(st_mode)]. *)
Definition is_dir (f : file) : bool :=
  negb (is_regular f) && (Z.land (st_mode f) 61440 =? 16384).

(** Whether the operating system lets the process open [filename] for
    writing. What is at the path must be a regular file the owner may write
    (a directory cannot be opened for writing); when nothing is there, the
    path must name an entry (not be empty, not end in a slash) of an
    existing directory the owner may write and search, the current
    directory [.] for a path with no directory part. Permissions are the
    owner's, the process being taken to own what it works on, as the
    permission check of [__init__] takes it. *)
Definition may_open_wb (w : world) (filename : string) : bool :=
  match fs w filename with
  | Some f => is_regular f && negb (Z.land (st_mode f) 128 =? 0)
  | None =>
      negb (String.eqb filename EmptyString)
      && negb (ends_with_slash filename)
      && match fs w (match dirname filename with
                     | EmptyString => "."
                     | d => d
                     end) with
         | Some d => is_dir d && (Z.land (st_mode d) 192 =? 192)
         | None => false
         end
  end.

(** [open(filename, 'wb')]: a name with a NUL byte is a [TypeError]; a path
    the system does not let the process open for writing is an [IOError];
    otherwise an existing file is truncated and keeps its mode, and a
    missing one is created as a regular file with mode [0666 & ~umask]. *)
Definition open_wb (filename : string) : M world unit :=
  fun w =>
    if has_nul filename
    then (Raise (TypeError nul_byte_message), w)
    else if may_open_wb w filename
    then
      (Return tt,
       match fs w filename with
       | Some f => set_file filename (mkfile (is_regular f) (st_mode f) "") w
       | None =>
           set_file filename
             (mkfile true (Z.lor 32768 (Z.land 438 (Z.lnot (umask w)))) "") w
       end)
    else (Raise (IOError filename), w).

(** [csvfile.write(s)] on a file opened by [open_wb]. *)
Definition file_write (filename : string) (s : string) : M world unit :=
  modify (fun w =>
    match fs w filename with
    | Some f =>
        set_file filename (mkfile (is_regular f) (st_mode f) (data f ++ s)) w
    | None => w
    end).

(** ** OMEROConnectionManager *)

(** The object [BlitzGateway(...)] returns. Two handles are the same object
    exactly when their [gateway_id]s agree. *)
Record gateway : Type := mkgateway {
  gateway_id : nat;
  username : pyval;
  passwd : pyval;
  host : pyval;
  port : pyval
}.

Record OMEROConnectionManager : Type := mkmanager {
  conn : option gateway;
  SUUID : pyval;
  HOST : pyval;
  PORT : pyval;
  USERNAME : pyval;
  PASSWORD : pyval
}.

Definition set_conn (c : option gateway) (m : OMEROConnectionManager) :=
  mkmanager c (SUUID m) (HOST m) (PORT m) (USERNAME m) (PASSWORD m).
Definition set_SUUID (v : pyval) (m : OMEROConnectionManager) :=
  mkmanager (conn m) v (HOST m) (PORT m) (USERNAME m) (PASSWORD m).
Definition set_HOST (v : pyval) (m : OMEROConnectionManager) :=
  mkmanager (conn m) (SUUID m) v (PORT m) (USERNAME m) (PASSWORD m).
Definition set_PORT (v : pyval) (m : OMEROConnectionManager) :=
  mkmanager (conn m) (SUUID m) (HOST m) v (USERNAME m) (PASSWORD m).
Definition set_USERNAME (v : pyval) (m : OMEROConnectionManager) :=
  mkmanager (conn m) (SUUID m) (HOST m) (PORT m) v (PASSWORD m).
Definition set_PASSWORD (v : pyval) (m : OMEROConnectionManager) :=
  mkmanager (conn m) (SUUID m) (HOST m) (PORT m) (USERNAME m) v.

(** A method runs on [self] and the world. *)
Definition method (A : Type) : Type := M (OMEROConnectionManager * world) A.

Definition self : method OMEROConnectionManager :=
  fun st => (Return (fst st), st).

Definition assign (f : OMEROConnectionManager -> OMEROConnectionManager)
  : method unit :=
  modify (fun st => (f (fst st), snd st)).

Definition nl : string := String (ascii_of_N 10) EmptyString.

Definition missing_config_message (config_file : string) : string :=
  "No active OMERO CLI session and configuration file " ++ config_file
  ++ " does not exist" ++ nl.

Definition permissions_message (config_file : string) : string :=
  "Configuration file contains private credentials and must not be "
  ++ "accessible by other users. Please run:" ++ nl ++ nl
  ++ "    chmod 600 " ++ config_file ++ nl ++ nl.

Definition connection_message : string :=
  "Error: Connection not available, please check your user name and "
  ++ "password." ++ nl.

Fixpoint lookup {A} (k : string) (l : list (string * A)) : option A :=
  match l with
  | [] => None
  | (k', v) :: l' => if String.eqb k k' then Some v else lookup k l'
  end.

(** [RawConfigParser.get]. *)
Definition config_get (config : ini) (section option : string)
  : outcome string :=
  match lookup section (sections config) with
  | None =>
      if negb (String.eqb section "DEFAULT")
      then Raise (NoSectionError section)
      else match lookup option (defaults config) with
           | Some v => Return v
           | None => Raise (NoOptionError option section)
           end
  | Some opts =>
      match lookup option opts with
      | Some v => Return v
      | None =>
          match lookup option (defaults config) with
          | Some v => Return v
          | None => Raise (NoOptionError option section)
          end
      end
  end.

Section Manager.

Variable E : env.

(** [config = RawConfigParser(); config.read(path)]: a file that cannot be
    opened is skipped and leaves the parser empty. *)
Definition RawConfigParser_read (path : string) : M world ini :=
  log (config_read_call path) ;;
  w <- get ;;
  match fs w path with
  | None => ret (mkini [] [])
  | Some f =>
      match parse_ini E (data f) with
      | Some config => ret config
      | None => raise (ParsingError path)
      end
  end.

(** [RawConfigParser.getint]: [int(self.get(section, option))]. *)
Definition config_getint (config : ini) (section option : string)
  : outcome Z :=
  match config_get config section option with
  | Return s =>
      match int_of_str E s with
      | Some z => Return z
      | None => Raise (ValueError "invalid literal for int() with base 10")
      end
  | Raise e => Raise e
  end.

Definition is_none {A} (o : option A) : bool :=
  match o with None => true | Some _ => false end.

Definition __init__ (config_file : option string) : method unit :=
  assign (set_conn None) ;;
  assign (set_SUUID PNone) ;;
  assign (set_HOST PNone) ;;
  assign (set_PORT PNone) ;;
  assign (set_USERNAME PNone) ;;
  assign (set_PASSWORD PNone) ;;
  when (is_none config_file)
    (let '(h, u, s, p) := get_current E in
     assign (set_HOST h) ;;
     assign (set_USERNAME u) ;;
     assign (set_SUUID s) ;;
     assign (set_PORT p)) ;;
  me <- self ;;
  when (negb (is_none config_file) || is_None (SUUID me))
    (let config_file :=
       match config_file with
       | None => "~/.omero/config"
       | Some path => path
       end in
     let config_file := expanduser E config_file in
     found <- in_snd (os_path_exists config_file) ;;
     found <- (if found then in_snd (os_path_isfile config_file)
               else ret false) ;;
     when (negb found)
       (in_snd (sys_stderr_write (missing_config_message config_file)) ;;
        in_snd (sys_exit 1)) ;;
     st <- in_snd (os_stat config_file) ;;
     when (negb (Z.land (st_mode st) 63 =? 0))
       (in_snd (sys_stderr_write (permissions_message config_file)) ;;
        in_snd (sys_exit 1)) ;;
     config <- in_snd (RawConfigParser_read config_file) ;;
     h <- of_outcome (config_get config "OMEROCredentials" "host") ;;
     assign (set_HOST (PStr h)) ;;
     p <- of_outcome (config_getint config "OMEROCredentials" "port") ;;
     assign (set_PORT (PInt p)) ;;
     u <- of_outcome (config_get config "OMEROCredentials" "username") ;;
     assign (set_USERNAME (PStr u)) ;;
     pw <- of_outcome (config_get config "OMEROCredentials" "password") ;;
     assign (set_PASSWORD (PStr pw))).

(** An object before [__init__] has run on it. *)
Definition blank : OMEROConnectionManager :=
  mkmanager None PNone PNone PNone PNone PNone.

(** [OMEROConnectionManager(config_file)]: the caller gets the object only
    when [__init__] returns. *)
Definition new (config_file : option string)
  : M world OMEROConnectionManager :=
  fun w =>
    match __init__ config_file (blank, w) with
    | (Return _, (m, w')) => (Return m, w')
    | (Raise e, (_, w')) => (Raise e, w')
    end.

(** [BlitzGateway(username=..., passwd=..., host=..., port=...)]. *)
Definition BlitzGateway (u pw h p : pyval) : M world gateway :=
  w <- get ;;
  let id := next_id w in
  modify (fun w => mkworld (fs w) (umask w) (stderr w) (S id) (trace w)) ;;
  log (BlitzGateway_call id u pw h p) ;;
  ret (mkgateway id u pw h p).

(** [g.connect(sUuid=...)]. *)
Definition gateway_connect (g : gateway) (sUuid : pyval) : M world bool :=
  log (gateway_connect_call (gateway_id g) sUuid) ;;
  ret (server_accepts E (username g) (passwd g) (host g) (port g) sUuid).

Definition seppuku (g : gateway) (softclose : bool) : M world unit :=
  log (seppuku_call (gateway_id g) softclose).

Definition connect : method (option gateway) :=
  me <- self ;;
  match conn me with
  | Some g => ret (Some g)
  | None =>
      g <- in_snd (BlitzGateway (USERNAME me) (PASSWORD me)
                                (HOST me) (PORT me)) ;;
      assign (set_conn (Some g)) ;;
      connected <- in_snd (gateway_connect g (SUUID me)) ;;
      when (negb connected)
        (in_snd (sys_stderr_write connection_message) ;;
         in_snd (sys_exit 1)) ;;
      me <- self ;;
      ret (conn me)
  end.

(** [if self.conn:] a gateway object is true, [None] is false. *)
Definition disconnect : method unit :=
  me <- self ;;
  match conn me with
  | Some g =>
      in_snd (seppuku g true) ;;
      assign (set_conn None)
  | None => ret tt
  end.

(** The two loops of [hql_query], appending cell by cell and row by row. *)
Definition unwrap_cell (column : option rtype) : pyval :=
  match column with
  | None => PNone
  | Some c => val c
  end.

Definition unwrap_row (row : list (option rtype)) : list pyval :=
  fold_left
    (fun unwrapped_row column => (unwrapped_row ++ [unwrap_cell column])%list)
    row [].

Definition unwrap_rows (rows : result_set) : list (list pyval) :=
  fold_left
    (fun unwrapped_rows row => (unwrapped_rows ++ [unwrap_row row])%list)
    rows [].

Definition hql_query (query : string) (p : option params)
  : method (list (list pyval)) :=
  me <- self ;;
  when (is_none (conn me)) (connect ;; ret tt) ;;
  let p := match p with None => ParametersI [] | Some p => p end in
  me <- self ;;
  match conn me with
  | None => raise (AttributeError "SERVICE_OPTS")
  | Some g =>
      in_snd (log (setOmeroGroup_call (gateway_id g) (-1))) ;;
      in_snd (log (getQueryService_call (gateway_id g))) ;;
      in_snd (log (projection_call (gateway_id g) query p (-1))) ;;
      rows <- of_outcome (server_projection E query p (-1)) ;;
      ret (unwrap_rows rows)
  end.

Definition __del__ : method unit := disconnect.

End Manager.

(** ** csv.writer(csvfile, quoting=QUOTE_NONE) and write_csv *)

(** The default (excel) dialect: a comma as delimiter, the double quote
    as quote character, CR LF as line terminator, no escape character. *)
Definition delimiter : ascii := ascii_of_N 44.
Definition quotechar : ascii := ascii_of_N 34.
Definition CR : ascii := ascii_of_N 13.
Definition LF : ascii := ascii_of_N 10.
Definition NUL : ascii := ascii_of_N 0.
Definition lineterminator : string := String CR (String LF EmptyString).

(** With [QUOTE_NONE] a delimiter, a quote character or a character of the
    line terminator inside a field has to be escaped. *)
Definition want_escape (c : ascii) : bool :=
  Ascii.eqb c delimiter || Ascii.eqb c quotechar
  || Ascii.eqb c CR || Ascii.eqb c LF.

(** Copy the characters of a field into the record. The writer walks the
    field as a C string, so it stops at the first NUL; no escape character
    is set, so a character that wants one is an error. *)
Fixpoint join_append_data (field : string) : outcome string :=
  match field with
  | EmptyString => Return EmptyString
  | String c rest =>
      if Ascii.eqb c NUL then Return EmptyString
      else if want_escape c
      then Raise (CsvError "need to escape, but no escapechar set")
      else match join_append_data rest with
           | Return copied => Return (String c copied)
           | Raise e => Raise e
           end
  end.

(** How the writer turns a field into text: a string as it is, [None] as
    the empty string, anything else through [str]. *)
Definition field_str (field : pyval) : string :=
  match field with
  | PStr s => s
  | PNone => EmptyString
  | PInt z => str_of_int z
  end.

(** The loop of [writerow] over the fields of a sequence of [len] fields:
    [rec] is the record so far and [num_fields] the number of fields in
    it. A record made of one empty field cannot be written unquoted. *)
Fixpoint join_fields (rec : string) (num_fields len : nat)
  (seq : list pyval) : outcome string :=
  match seq with
  | [] => Return rec
  | field :: seq' =>
      match join_append_data (field_str field) with
      | Raise e => Raise e
      | Return copied =>
          if (String.length copied =? 0)%nat && (len =? 1)%nat
          then Raise (CsvError "single empty field record must be quoted")
          else
            let sep :=
              if (0 <? num_fields)%nat then String delimiter EmptyString
              else EmptyString in
            join_fields (rec ++ sep ++ copied) (S num_fields) len seq'
      end
  end.

Definition writerow (csvfile : string) (seq : list pyval) : M world unit :=
  match join_fields EmptyString 0 (List.length seq) seq with
  | Return rec => file_write csvfile (rec ++ lineterminator)
  | Raise e => raise e
  end.

Definition writerows (csvfile : string) (rows : list (list pyval))
  : M world unit :=
  for_each rows (writerow csvfile).

Definition header_message : string :=
  "Header does not have the same number of columns as the rows".

Definition write_csv (rows : list (list pyval)) (filename : string)
  (header : option (list pyval)) : M world unit :=
  match header with
  | Some h =>
      when ((0 <? List.length rows)%nat
            && negb (List.length (hd [] rows) =? List.length h)%nat)
        (raise (ValueError header_message))
  | None => ret tt
  end ;;
  open_wb filename ;;
  match header with
  | Some h => writerow filename h
  | None => ret tt
  end ;;
  writerows filename rows.

(** *** What the file is meant to hold *)

(** A row as a line of text: the fields as they are, separated by commas,
    closed by the line terminator. *)
Definition csv_line (row : list pyval) : string :=
  String.concat "," (map field_str row) ++ lineterminator.

Definition csv_text (lines : list (list pyval)) : string :=
  fold_right String.append EmptyString (map csv_line lines).

(** A field that can go into the file as it is. *)
Definition plain_char (c : ascii) : bool :=
  negb (Ascii.eqb c NUL) && negb (want_escape c).

Definition plain_field (field : pyval) : bool :=
  forallb plain_char (list_ascii_of_string (field_str field)).

(** A row the unquoted writer accepts: plain fields, and not the single
    empty field. *)
Definition plain_row (row : list pyval) : bool :=
  forallb plain_field row
  && negb (match row with
           | [field] => (String.length (field_str field) =? 0)%nat
           | _ => false
           end).

(** The lines of a call: the header, when there is one, then the rows. *)
Definition lines_of (header : option (list pyval)) (rows : list (list pyval))
  : list (list pyval) :=
  match header with
  | Some h => h :: rows
  | None => rows
  end.

(** The length check [write_csv] makes before it opens the file. *)
Definition header_fits (header : option (list pyval))
  (rows : list (list pyval)) : Prop :=
  match header, rows with
  | Some h, row :: _ => List.length row = List.length h
  | _, _ => True
  end.

(** ** Vocabulary of the properties *)

(** The path [__init__] reads when it reads a file. *)
Definition config_path (E : env) (config_file : option string) : string :=
  expanduser E (match config_file with
                | None => "~/.omero/config"
                | Some path => path
                end).

(** The session id the store reports. *)
Definition session_uuid (E : env) : pyval :=
  let '(_, _, s, _) := get_current E in s.

(** [__init__] goes on to the configuration file when a path was given or
    the session store reports no session id. *)
Definition uses_config_file (E : env) (config_file : option string) : bool :=
  negb (is_none config_file) || is_None (session_uuid E).

(** The parameters [hql_query] passes on: the caller's, or an empty set. *)
Definition params_or_default (p : option params) : params :=
  match p with
  | None => ParametersI []
  | Some p => p
  end.

(** A result cell and the value it unwraps to. *)
Inductive unwrapped : option rtype -> pyval -> Prop :=
| unwrapped_null : unwrapped None PNone
| unwrapped_value (c : rtype) : unwrapped (Some c) (val c).

(** The ways a gateway can authenticate. *)
Inductive auth_mode : Type :=
| by_password (u pw : pyval)
| by_session (sUuid : pyval).

(** The modes that the arguments handed to [BlitzGateway(...)] and to its
    [connect(sUuid=...)] make available: a username with a password, a
    session id. *)
Definition offered_auth (u pw sUuid : pyval) : list auth_mode :=
  ((if negb (is_None u) && negb (is_None pw) then [by_password u pw] else [])
   ++ (if negb (is_None sUuid) then [by_session sUuid] else []))%list.

(** The managers a program can hold: built by the constructor, then used
    through the methods of the class, in any world. *)
Inductive reachable (E : env) : OMEROConnectionManager -> Prop :=
| reach_new config_file w m w' :
    new E config_file w = (Return m, w') ->
    reachable E m
| reach_connect m w r m' w' :
    reachable E m ->
    connect E (m, w) = (r, (m', w')) ->
    reachable E m'
| reach_disconnect m w r m' w' :
    reachable E m ->
    disconnect (m, w) = (r, (m', w')) ->
    reachable E m'
| reach_hql_query query p m w r m' w' :
    reachable E m ->
    hql_query E query p (m, w) = (r, (m', w')) ->
    reachable E m'.

(** What construction leaves in the credential fields: a username and a
    password with no session id, or a session id with no password. *)
Definition one_mode (m : OMEROConnectionManager) : Prop :=
  (SUUID m = PNone /\ USERNAME m <> PNone /\ PASSWORD m <> PNone)
  \/ (SUUID m <> PNone /\ PASSWORD m = PNone).

Definition same_credentials (m m' : OMEROConnectionManager) : Prop :=
  SUUID m' = SUUID m /\ HOST m' = HOST m /\ PORT m' = PORT m
  /\ USERNAME m' = USERNAME m /\ PASSWORD m' = PASSWORD m.

(** The bytes of the file at a path, when there is one. *)
Definition file_data (w : world) (path : string) : option string :=
  option_map data (fs w path).

(** Two worlds that differ at most in the file at [path]. *)
Definition same_but (path : string) (w w' : world) : Prop :=
  (forall other, other <> path -> fs w' other = fs w other)
  /\ umask w' = umask w /\ stderr w' = stderr w
  /\ next_id w' = next_id w /\ trace w' = trace w.

(** The text [join_fields] builds after [num_fields] fields. *)
Fixpoint joined (num_fields : nat) (seq : list pyval) : string :=
  match seq with
  | [] => EmptyString
  | field :: seq' =>
      (if (0 <? num_fields)%nat then String delimiter EmptyString
       else EmptyString)
      ++ field_str field ++ joined (S num_fields) seq'
  end.

(** The environment [E] with another answer from the session store. *)
Definition with_session (E : env) (props : pyval * pyval * pyval * pyval)
  : env :=
  mkenv props (expanduser E) (parse_ini E) (int_of_str E)
        (server_accepts E) (server_projection E).

(** The four lookups of [__init__], in its order. *)
Definition read_credentials (E : env) (config : ini)
  : outcome (string * Z * string * string) :=
  match config_get config "OMEROCredentials" "host" with
  | Raise e => Raise e
  | Return h =>
      match config_getint E config "OMEROCredentials" "port" with
      | Raise e => Raise e
      | Return p =>
          match config_get config "OMEROCredentials" "username" with
          | Raise e => Raise e
          | Return u =>
              match config_get config "OMEROCredentials" "password" with
              | Raise e => Raise e
              | Return pw => Return (h, p, u, pw)
              end
          end
      end
  end.

(** The calls a construction makes on the configuration file that passes
    its checks. *)
Definition config_file_calls (path : string) : list event :=
  [os_path_exists_call path; os_path_isfile_call path; os_stat_call path;
   config_read_call path].

(** Calls to the file system, as opposed to calls to the gateway. *)
Definition is_fs_event (e : event) : bool :=
  match e with
  | os_path_exists_call _ | os_path_isfile_call _ | os_stat_call _
  | config_read_call _ => true
  | _ => false
  end.

(** The world after [events] have been logged. *)
Definition logged (events : list event) (w : world) : world :=
  mkworld (fs w) (umask w) (stderr w) (next_id w) (trace w ++ events).

(** The calls of one [hql_query] on the gateway [id]. *)
Definition query_calls (id : nat) (query : string) (p : params)
  : list event :=
  [setOmeroGroup_call id (-1); getQueryService_call id;
   projection_call id query p (-1)].

(** How often a character occurs in a string. *)
Fixpoint occurrences (c : ascii) (s : string) : nat :=
  match s with
  | EmptyString => 0%nat
  | String c' s' =>
      ((if Ascii.eqb c' c then 1 else 0) + occurrences c s')%nat
  end.

(** The record the writer builds for a row, when it accepts the row. *)
Definition record_of (row : list pyval) : outcome string :=
  join_fields EmptyString 0 (List.length row) row.

(** The separators [join_fields] adds after [num_fields] fields. *)
Fixpoint separators (num_fields : nat) (seq : list pyval) : nat :=
  match seq with
  | [] => 0%nat
  | _ :: seq' =>
      ((if (0 <? num_fields)%nat then 1 else 0)
       + separators (S num_fields) seq')%nat
  end.

(** The commas that separate the fields of the lines: one less than the
    number of fields on each line that has fields. *)
Definition separating_commas (lines : list (list pyval)) : nat :=
  list_sum (map (fun row => Nat.pred (List.length row)) lines).

(** The gateways built and not yet closed, read off a trace. *)
Definition track (live : list nat) (e : event) : list nat :=
  match e with
  | BlitzGateway_call id _ _ _ _ => (live ++ [id])%list
  | seppuku_call id _ => filter (fun i => negb (i =? id)%nat) live
  | _ => live
  end.

Definition live_gateways (events : list event) : list nat :=
  fold_left track events [].

(** The handle on the manager is all that is open. *)
Definition handle_accounts_for_gateways
  (st : OMEROConnectionManager * world) : Prop :=
  live_gateways (trace (snd st))
  = match conn (fst st) with
    | Some g => [gateway_id g]
    | None => []
    end.

(** The states of one manager in its world: built by the constructor in a
    world with no gateway open, then driven through the methods. *)
Inductive run (E : env) : OMEROConnectionManager * world -> Prop :=
| run_new config_file w m w' :
    live_gateways (trace w) = [] ->
    new E config_file w = (Return m, w') ->
    run E (m, w')
| run_connect st r st' :
    run E st -> connect E st = (r, st') -> run E st'
| run_disconnect st r st' :
    run E st -> disconnect st = (r, st') -> run E st'
| run_hql_query query p st r st' :
    run E st -> hql_query E query p st = (r, st') -> run E st'
| run_del st r st' :
    run E st -> __del__ st = (r, st') -> run E st'.

(** The target of [write_csv] can be opened for writing. *)
Definition opens_wb (w : world) (filename : string) : bool :=
  negb (has_nul filename) && may_open_wb w filename.

(** Standard error, the call log and the gateway counter are as before. *)
Definition same_streams (w w' : world) : Prop :=
  stderr w' = stderr w /\ trace w' = trace w /\ next_id w' = next_id w.

(** ** Sample collaborators *)

(** A machine whose user is logged in through the CLI and whose INI parser
    rejects every file. *)
Definition lab_env : env :=
  mkenv
    (PStr "omero.lab.example", PStr "ada", PStr "c0ffee-51", PStr "4064")
    (fun path =>
       match path with
       | String "~" rest => "/home/ada" ++ rest
       | _ => path
       end)
    (fun _ => None)
    (fun _ => None)
    (fun _ _ _ _ _ => true)
    (fun _ _ _ =>
       Return [[Some (wrap (PInt 1)); None];
               [Some (wrap (PStr "x")); Some (wrap (PInt 2))]]).

(** The same machine with no CLI session. *)
Definition logged_out_env : env :=
  mkenv (PNone, PNone, PNone, PNone)
        (expanduser lab_env) (parse_ini lab_env) (int_of_str lab_env)
        (server_accepts lab_env) (server_projection lab_env).

(** A file system whose only file is a world-readable, unparsable
    [~/.omero/config]. *)
Definition lab_world : world :=
  mkworld
    (fun path =>
       if String.eqb path "/home/ada/.omero/config"
       then Some (mkfile true 33188 "not an ini file")
       else None)
    18 EmptyString 0 [].

(** A machine with no CLI session, a parser that knows one file, and a
    server that accepts one password. *)
Definition office_ini : ini :=
  mkini []
    [("OMEROCredentials",
      [("host", "omero.lab.example"); ("port", "4064");
       ("username", "ada"); ("password", "s3cret")])].

Definition keyless_ini : ini :=
  mkini [] [("OMEROCredentials", [("host", "omero.lab.example")])].

Definition office_env : env :=
  mkenv (PStr "omero.lab.example", PStr "ada", PNone, PNone)
        (expanduser lab_env)
        (fun text =>
           if String.eqb text "credentials" then Some office_ini
           else if String.eqb text "host only" then Some keyless_ini
           else None)
        (fun s => if String.eqb s "4064" then Some 4064 else None)
        (fun _ pw _ _ _ =>
           match pw with
           | PStr pw => String.eqb pw "s3cret"
           | _ => false
           end)
        (server_projection lab_env).

(** A file system with an owner-only configuration file, an owner-only file
    that lacks keys, an owner-only file that does not parse, and a
    directory. *)
Definition office_world : world :=
  mkworld
    (fun path =>
       if String.eqb path "/home/ada/.omero/config"
       then Some (mkfile true 33152 "credentials")
       else if String.eqb path "/home/ada/draft.ini"
       then Some (mkfile true 33152 "host only")
       else if String.eqb path "/home/ada/notes.txt"
       then Some (mkfile true 33152 "dear diary")
       else if String.eqb path "/home/ada/plates"
       then Some (mkfile false 16832 EmptyString)
       else None)
    18 EmptyString 0 [].

(** A file system to write into: the current directory and a home
    directory, an old result file, a read-only file, a directory named like
    a result file, and a directory closed to writing. *)
Definition bench_world : world :=
  mkworld
    (fun path =>
       if String.eqb path "." then Some (mkfile false 16877 EmptyString)
       else if String.eqb path "/home/ada"
       then Some (mkfile false 16877 EmptyString)
       else if String.eqb path "/home/ada/old.csv"
       then Some (mkfile true 33188 "stale,contents")
       else if String.eqb path "/home/ada/frozen.csv"
       then Some (mkfile true 33060 "kept")
       else if String.eqb path "/home/ada/plates"
       then Some (mkfile false 16877 EmptyString)
       else if String.eqb path "/srv/archive"
       then Some (mkfile false 16749 EmptyString)
       else None)
    18 EmptyString 0 [].

(** ** Tactics *)

(** Unfold the monad and the calls to the world, then compute. *)
Ltac run_init :=
  repeat (progress
    (unfold bind, when, ret, raise, get, modify, of_outcome, in_snd, assign,
       self, log, sys_exit, sys_stderr_write, os_path_exists, os_path_isfile,
       os_stat;
     simpl)).

(** The same for the gateway calls, one pass. *)
Ltac run_method :=
  unfold bind, when, ret, raise, get, modify, of_outcome, in_snd, assign,
    self, log, sys_exit, sys_stderr_write, BlitzGateway, gateway_connect,
    seppuku;
  simpl.

(** Case analysis on an innermost scrutinee of the goal. *)
Ltac break_match :=
  match goal with
  | |- context [match ?x with _ => _ end] =>
      lazymatch x with
      | context [match _ with _ => _ end] => fail
      | _ => destruct x eqn:?
      end
  end.

(** ** Properties *)

Lemma str_of_int_reads_back (z : Z) :
  option_map Z.of_int (NilZero.int_of_string (str_of_int z)) = Some z.
Proof.
  unfold str_of_int.
  rewrite NilZero.isi.
  - simpl. now rewrite DecimalZ.of_to.
  - destruct z; simpl; try discriminate.
    intros H; injection H. apply DecimalPos.Unsigned.to_uint_nonnil.
  - destruct z; simpl; try discriminate.
    intros H; injection H. apply DecimalPos.Unsigned.to_uint_nonnil.
Qed.

Lemma row_letter (row : Z) :
  0 <= row <= 25 ->
  exists letter,
    String.get (Z.to_nat row) uppercase = Some letter
    /\ chr (65 + row) = Return (String letter EmptyString).
Proof.
  intros Hrow.
  assert (Hrow' : exists n, (n < 26)%nat /\ row = Z.of_nat n).
  { exists (Z.to_nat row). lia. }
  destruct Hrow' as (n & Hn & ->).
  rewrite Nat2Z.id.
  do 26 (destruct n as [|n]; [eexists; split; reflexivity|]).
  lia.
Qed.

(** *** well_from_row_col *)

(** C9. For every row in 0..25 and every column, [well_from_row_col]
    returns the uppercase letter at offset [row] from A followed by the
    decimal text of [column + 1]; (0,0) gives A1, (3,2) gives D3 and (25,0)
    gives Z1. *)
Theorem well_from_row_col_label :
  (forall row column, 0 <= row <= 25 ->
     exists letter digits,
       String.get (Z.to_nat row) uppercase = Some letter
       /\ option_map Z.of_int (NilZero.int_of_string digits)
          = Some (column + 1)
       /\ well_from_row_col row column = Return (String letter digits))
  /\ well_from_row_col 0 0 = Return "A1"
  /\ well_from_row_col 3 2 = Return "D3"
  /\ well_from_row_col 25 0 = Return "Z1".
Proof.
  split; [|repeat split].
  intros row column Hrow.
  destruct (row_letter row Hrow) as (letter & Hget & Hchr).
  exists letter, (str_of_int (column + 1)).
  split; [exact Hget|].
  split; [apply str_of_int_reads_back|].
  unfold well_from_row_col. now rewrite Hchr.
Qed.

Lemma well_from_row_col_label_witness :
  exists letter digits,
    String.get (Z.to_nat 7) uppercase = Some letter
    /\ option_map Z.of_int (NilZero.int_of_string digits) = Some (11 + 1)
    /\ well_from_row_col 7 11 = Return (String letter digits).
Proof.
  apply (proj1 well_from_row_col_label 7 11). lia.
Defined.

(** *** Construction *)

(** C1. With no explicit path and a session id in the store, the manager's
    HOST, USERNAME, SUUID and PORT are the store's, PASSWORD stays [None],
    and the world is left as it was: no call to the file system is made,
    whatever file sits at the default path. *)
Theorem session_store_takes_precedence :
  forall (E : env) (w : world) (h u s p : pyval),
    get_current E = (h, u, s, p) ->
    s <> PNone ->
    new E None w = (Return (mkmanager None s h p u PNone), w).
Proof.
  intros E w h u s p Hcur Hs.
  unfold new, __init__. cbn. rewrite Hcur. cbn.
  destruct s; [congruence| |]; reflexivity.
Qed.

Lemma session_store_takes_precedence_witness :
  new lab_env None lab_world
  = (Return (mkmanager None (PStr "c0ffee-51") (PStr "omero.lab.example")
                       (PStr "4064") (PStr "ada") PNone),
     lab_world).
Proof.
  apply (session_store_takes_precedence lab_env lab_world).
  - reflexivity.
  - discriminate.
Defined.

(** C6. When the configuration file is the source of credentials and
    nothing exists at its expanded path, construction ends in
    [SystemExit(1)] after writing the message to the error stream. *)
Theorem missing_config_file_is_fatal :
  forall (E : env) (w : world) (config_file : option string),
    uses_config_file E config_file = true ->
    fs w (config_path E config_file) = None ->
    new E config_file w
    = (Raise (SystemExit 1),
       mkworld (fs w) (umask w)
         (stderr w ++ missing_config_message (config_path E config_file))
         (next_id w)
         (trace w ++ [os_path_exists_call (config_path E config_file)])).
Proof.
  intros E w config_file Huse Hfs.
  unfold uses_config_file, session_uuid in Huse.
  unfold config_path in *.
  unfold new, __init__.
  destruct config_file as [path|]; cbn in *.
  - rewrite Hfs. reflexivity.
  - destruct (get_current E) as [[[h u] s] p]. cbn.
    rewrite Huse. cbn. rewrite Hfs. reflexivity.
Qed.

Lemma missing_config_file_is_fatal_witness :
  new logged_out_env (Some "~/lab.ini") lab_world
  = (Raise (SystemExit 1),
     mkworld (fs lab_world) 18
       (missing_config_message "/home/ada/lab.ini") 0
       [os_path_exists_call "/home/ada/lab.ini"]).
Proof.
  apply (missing_config_file_is_fatal logged_out_env lab_world
           (Some "~/lab.ini")); reflexivity.
Defined.

Local Opaque Z.land missing_config_message permissions_message.

(** C2. When the configuration file is the source of credentials, is a
    regular file and has some group or other permission bit set, construction
    ends in [SystemExit(1)] after telling the user on the error stream to
    [chmod 600] the file; the file is not read, so this holds for any
    contents, and the caller gets no manager. *)
Theorem insecure_config_file_is_fatal :
  forall (E : env) (w : world) (config_file : option string) (f : file),
    uses_config_file E config_file = true ->
    fs w (config_path E config_file) = Some f ->
    is_regular f = true ->
    Z.land (st_mode f) 63 <> 0 ->
    new E config_file w
    = (Raise (SystemExit 1),
       mkworld (fs w) (umask w)
         (stderr w ++ permissions_message (config_path E config_file))
         (next_id w)
         (trace w ++ [os_path_exists_call (config_path E config_file);
                      os_path_isfile_call (config_path E config_file);
                      os_stat_call (config_path E config_file)])).
Proof.
  intros E w config_file f Huse Hfs Hreg Hmode.
  apply Z.eqb_neq in Hmode.
  unfold uses_config_file, session_uuid in Huse.
  unfold config_path in *.
  unfold new, __init__.
  destruct config_file as [path|]; simpl in Huse, Hfs |- *.
  - run_init. repeat (progress (rewrite ?Hfs, ?Hreg, ?Hmode; run_init)).
    now rewrite <- !app_assoc.
  - destruct (get_current E) as [[[h u] s] p]. run_init.
    rewrite Huse.
    repeat (progress (rewrite ?Hfs, ?Hreg, ?Hmode; run_init)).
    now rewrite <- !app_assoc.
Qed.

Local Transparent Z.land missing_config_message permissions_message.

Lemma insecure_config_file_is_fatal_witness :
  new logged_out_env None lab_world
  = (Raise (SystemExit 1),
     mkworld (fs lab_world) 18
       (permissions_message "/home/ada/.omero/config") 0
       [os_path_exists_call "/home/ada/.omero/config";
        os_path_isfile_call "/home/ada/.omero/config";
        os_stat_call "/home/ada/.omero/config"]).
Proof.
  apply (insecure_config_file_is_fatal logged_out_env lab_world None
           (mkfile true 33188 "not an ini file")).
  - reflexivity.
  - reflexivity.
  - reflexivity.
  - vm_compute. discriminate.
Defined.

(** *** connect and disconnect *)

Lemma connect_existing (E : env) (m : OMEROConnectionManager) (w : world)
  (g : gateway) :
  conn m = Some g -> connect E (m, w) = (Return (Some g), (m, w)).
Proof.
  intros Hconn. unfold connect. run_method. now rewrite Hconn.
Qed.

Lemma connect_returns_conn (E : env) st r st' :
  connect E st = (Return r, st') ->
  exists g, r = Some g /\ conn (fst st') = Some g.
Proof.
  destruct st as [m w]. unfold connect. run_method.
  destruct (conn m) as [g|] eqn:Hconn.
  - intros H; inversion H; subst. eauto.
  - destruct (server_accepts E _ _ _ _ _); simpl; intros H; inversion H.
    eauto.
Qed.

Lemma disconnect_without_handle (m : OMEROConnectionManager) (w : world) :
  conn m = None -> disconnect (m, w) = (Return tt, (m, w)).
Proof.
  intros Hconn. unfold disconnect. run_method. now rewrite Hconn.
Qed.

Lemma disconnect_clears (st : OMEROConnectionManager * world) :
  exists st', disconnect st = (Return tt, st') /\ conn (fst st') = None.
Proof.
  destruct st as [m w]. unfold disconnect. run_method.
  destruct (conn m) eqn:Hconn; eexists; split; try reflexivity; assumption.
Qed.

(** C4. [connect] on a manager that holds a handle returns that handle and
    changes nothing, so a second [connect] after a first returns the same
    handle; [disconnect] on a manager with no handle changes nothing, so a
    second [disconnect] after a first does nothing. *)
Theorem connect_disconnect_idempotent :
  forall (E : env),
    (forall m w g,
        conn m = Some g -> connect E (m, w) = (Return (Some g), (m, w)))
    /\ (forall st r st',
           connect E st = (Return r, st') ->
           connect E st' = (Return r, st'))
    /\ (forall m w,
           conn m = None -> disconnect (m, w) = (Return tt, (m, w)))
    /\ (forall st r st',
           disconnect st = (r, st') -> disconnect st' = (Return tt, st')).
Proof.
  intros E. repeat split.
  - intros m w g. apply connect_existing.
  - intros st r st' Hfirst.
    destruct (connect_returns_conn E st r st' Hfirst) as (g & -> & Hconn).
    destruct st' as [m' w']. now apply connect_existing.
  - intros m w. apply disconnect_without_handle.
  - intros st r st' Hfirst.
    destruct (disconnect_clears st) as (st1 & Hrun & Hconn).
    rewrite Hrun in Hfirst. inversion Hfirst; subst.
    destruct st' as [m' w']. now apply disconnect_without_handle.
Qed.

Lemma connect_disconnect_idempotent_witness :
  let g := mkgateway 0 (PStr "ada") PNone (PStr "omero.lab.example")
                     (PStr "4064") in
  let m := mkmanager None (PStr "c0ffee-51") (PStr "omero.lab.example")
                     (PStr "4064") (PStr "ada") PNone in
  let st := (set_conn (Some g) m,
             mkworld (fs lab_world) 18 EmptyString 1
               [BlitzGateway_call 0 (PStr "ada") PNone
                  (PStr "omero.lab.example") (PStr "4064");
                gateway_connect_call 0 (PStr "c0ffee-51")]) in
  connect lab_env st = (Return (Some g), st)
  /\ disconnect (m, lab_world) = (Return tt, (m, lab_world)).
Proof.
  intros g m st.
  destruct (connect_disconnect_idempotent lab_env)
    as (_ & Hconnect & _ & Hdisconnect).
  split.
  - apply (Hconnect (m, lab_world) (Some g) st). reflexivity.
  - apply (Hdisconnect (m, lab_world) (Return tt) (m, lab_world)).
    reflexivity.
Defined.

(** *** Credentials at connect time *)

Lemma new_one_mode (E : env) config_file w m w' :
  new E config_file w = (Return m, w') -> one_mode m.
Proof.
  unfold new, __init__, one_mode, RawConfigParser_read.
  destruct config_file as [path|]; simpl.
  - run_init.
    repeat (break_match; simpl; try discriminate).
    all: intros H; inversion H; subst; simpl.
    all: left; repeat split; discriminate.
  - destruct (get_current E) as [[[h u] s] p]. run_init.
    destruct s; simpl.
    2,3: intros H; inversion H; subst; simpl; right; split;
         [discriminate|reflexivity].
    run_init.
    repeat (break_match; simpl; try discriminate).
    all: intros H; inversion H; subst; simpl.
    all: left; repeat split; discriminate.
Qed.

Lemma connect_same_credentials (E : env) m w r m' w' :
  connect E (m, w) = (r, (m', w')) -> same_credentials m m'.
Proof.
  unfold connect, same_credentials. run_method.
  destruct (conn m); simpl.
  - intros H; inversion H; subst. repeat split.
  - destruct (server_accepts E _ _ _ _ _); simpl;
      intros H; inversion H; subst; repeat split.
Qed.

Lemma disconnect_same_credentials m w r m' w' :
  disconnect (m, w) = (r, (m', w')) -> same_credentials m m'.
Proof.
  unfold disconnect, same_credentials. run_method.
  destruct (conn m); simpl; intros H; inversion H; subst; repeat split.
Qed.

Lemma hql_query_same_credentials (E : env) query p m w r m' w' :
  hql_query E query p (m, w) = (r, (m', w')) -> same_credentials m m'.
Proof.
  unfold hql_query. unfold bind at 1. unfold self at 1.
  unfold bind at 1. unfold when at 1. simpl.
  destruct (conn m) as [g|] eqn:Hconn; simpl.
  - unfold ret at 1. unfold bind at 1. unfold self at 1. simpl.
    rewrite Hconn. run_method.
    destruct (server_projection E _ _ _);
      intros H; inversion H; subst; repeat split.
  - unfold bind at 1.
    destruct (connect E (m, w)) as [rc [mc wc]] eqn:Hc.
    apply connect_same_credentials in Hc.
    destruct Hc as (Hs & Hh & Hp & Hu & Hpw).
    unfold same_credentials. rewrite <- Hs, <- Hh, <- Hp, <- Hu, <- Hpw.
    destruct rc; simpl.
    + run_method. destruct (conn mc); simpl.
      * destruct (server_projection E _ _ _);
          intros H; inversion H; subst; repeat split.
      * intros H; inversion H; subst; repeat split.
    + intros H; inversion H; subst; repeat split.
Qed.

Lemma one_mode_same_credentials m m' :
  same_credentials m m' -> one_mode m -> one_mode m'.
Proof.
  unfold same_credentials, one_mode.
  intros (Hs & _ & _ & Hu & Hpw). now rewrite Hs, Hu, Hpw.
Qed.

Lemma reachable_one_mode (E : env) m : reachable E m -> one_mode m.
Proof.
  induction 1 as [config_file w m w' Hnew
                 | m w r m' w' _ IH Hrun
                 | m w r m' w' _ IH Hrun
                 | query p m w r m' w' _ IH Hrun].
  - eapply new_one_mode; eassumption.
  - eapply one_mode_same_credentials; [|exact IH].
    eapply connect_same_credentials; eassumption.
  - eapply one_mode_same_credentials; [|exact IH].
    eapply disconnect_same_credentials; eassumption.
  - eapply one_mode_same_credentials; [|exact IH].
    eapply hql_query_same_credentials; eassumption.
Qed.

Lemma one_mode_offered m :
  one_mode m ->
  offered_auth (USERNAME m) (PASSWORD m) (SUUID m)
  = [if negb (is_None (USERNAME m)) && negb (is_None (PASSWORD m))
     then by_password (USERNAME m) (PASSWORD m)
     else by_session (SUUID m)].
Proof.
  unfold one_mode, offered_auth.
  intros [(Hs & Hu & Hpw) | (Hs & Hpw)].
  - rewrite Hs.
    destruct (USERNAME m); [congruence| |];
      (destruct (PASSWORD m); [congruence| |]); reflexivity.
  - rewrite Hpw. rewrite andb_false_r.
    destruct (SUUID m); [congruence| |]; reflexivity.
Qed.

(** C5. When [connect] builds a new handle on a manager obtained from the
    constructor and the methods, the arguments it hands to the gateway
    (username, password, host and port to [BlitzGateway], the session id to
    its [connect]) are the manager's fields, and they offer exactly one way
    to authenticate: the username and password pair when both are present,
    and the session id otherwise. *)
Theorem connect_offers_one_auth_mode :
  forall (E : env) (m : OMEROConnectionManager) (w : world),
    reachable E m ->
    conn m = None ->
    exists r m' w' id u pw h p s,
      connect E (m, w) = (r, (m', w'))
      /\ trace w'
         = (trace w ++ [BlitzGateway_call id u pw h p;
                        gateway_connect_call id s])%list
      /\ (u, pw, s) = (USERNAME m, PASSWORD m, SUUID m)
      /\ offered_auth u pw s
         = [if negb (is_None (USERNAME m)) && negb (is_None (PASSWORD m))
            then by_password (USERNAME m) (PASSWORD m)
            else by_session (SUUID m)].
Proof.
  intros E m w Hreach Hconn.
  apply reachable_one_mode in Hreach.
  destruct (connect E (m, w)) as [r [m' w']] eqn:Hrun.
  exists r, m', w', (next_id w), (USERNAME m), (PASSWORD m), (HOST m),
    (PORT m), (SUUID m).
  split; [reflexivity|].
  split; [|split; [reflexivity|now apply one_mode_offered]].
  revert Hrun. unfold connect. run_method. rewrite Hconn.
  destruct (server_accepts E _ _ _ _ _); simpl;
    intros H; inversion H; subst; simpl;
    now rewrite <- !app_assoc.
Qed.

Lemma connect_offers_one_auth_mode_witness :
  let m := mkmanager None (PStr "c0ffee-51") (PStr "omero.lab.example")
                     (PStr "4064") (PStr "ada") PNone in
  exists r m' w' id u pw h p s,
    connect lab_env (m, lab_world) = (r, (m', w'))
    /\ trace w'
       = (trace lab_world ++ [BlitzGateway_call id u pw h p;
                              gateway_connect_call id s])%list
    /\ (u, pw, s) = (USERNAME m, PASSWORD m, SUUID m)
    /\ offered_auth u pw s
       = [if negb (is_None (USERNAME m)) && negb (is_None (PASSWORD m))
          then by_password (USERNAME m) (PASSWORD m)
          else by_session (SUUID m)].
Proof.
  intros m.
  apply (connect_offers_one_auth_mode lab_env m lab_world).
  - apply (reach_new lab_env None lab_world m lab_world). reflexivity.
  - reflexivity.
Defined.

(** *** hql_query *)

Lemma fold_left_snoc {A B : Type} (f : A -> B) (l : list A) (acc : list B) :
  fold_left (fun done x => (done ++ [f x])%list) l acc
  = (acc ++ map f l)%list.
Proof.
  revert acc.
  induction l as [|x l IH]; intros acc; simpl.
  - now rewrite app_nil_r.
  - rewrite IH. now rewrite <- app_assoc.
Qed.

Lemma unwrap_row_map (row : list (option rtype)) :
  unwrap_row row = map unwrap_cell row.
Proof. unfold unwrap_row. now rewrite fold_left_snoc. Qed.

Lemma unwrap_rows_map (rows : result_set) :
  unwrap_rows rows = map (map unwrap_cell) rows.
Proof.
  unfold unwrap_rows. rewrite fold_left_snoc. simpl.
  apply map_ext. intros row. apply unwrap_row_map.
Qed.

Lemma unwrap_cell_unwrapped (column : option rtype) :
  unwrapped column (unwrap_cell column).
Proof. destruct column; constructor. Qed.

Lemma unwrap_rows_unwrapped (rows : result_set) :
  Forall2 (Forall2 unwrapped) rows (unwrap_rows rows).
Proof.
  rewrite unwrap_rows_map.
  induction rows as [|row rows IH]; simpl; constructor; [|exact IH].
  induction row as [|column row IHrow]; simpl; constructor;
    [apply unwrap_cell_unwrapped|exact IHrow].
Qed.

Lemma hql_query_returns (E : env) query p m w rows :
  (conn m <> None
   \/ server_accepts E (USERNAME m) (PASSWORD m) (HOST m) (PORT m) (SUUID m)
      = true) ->
  server_projection E query (params_or_default p) (-1) = Return rows ->
  exists st', hql_query E query p (m, w) = (Return (unwrap_rows rows), st').
Proof.
  intros Hconn Hrows.
  unfold params_or_default in Hrows.
  unfold hql_query, connect.
  destruct (conn m) as [g|] eqn:Hg.
  - run_method. rewrite Hg. simpl. rewrite Hg, Hrows.
    eexists. reflexivity.
  - destruct Hconn as [Hconn|Hconn]; [congruence|].
    run_method. rewrite Hg. simpl. rewrite Hg. simpl.
    rewrite Hconn. simpl. rewrite Hrows.
    eexists. reflexivity.
Qed.

(** C3. Whenever the query service returns a result set (on a manager that
    is connected or can connect), [hql_query] returns as many rows, each
    with as many cells, in the same order, where a null cell has become
    [None] and any other cell the [val] of its wrapper; the rows
    [[wrap(1), null], [wrap("x"), wrap(2)]] come back as
    [[1, None], ["x", 2]]. *)
Theorem hql_query_unwraps_cells :
  (forall (E : env) query p m w rows,
      (conn m <> None
       \/ server_accepts E (USERNAME m) (PASSWORD m) (HOST m) (PORT m)
            (SUUID m) = true) ->
      server_projection E query (params_or_default p) (-1) = Return rows ->
      exists result st',
        hql_query E query p (m, w) = (Return result, st')
        /\ Forall2 (Forall2 unwrapped) rows result)
  /\ (server_projection lab_env "select i.id, i.name from Image i"
        (ParametersI []) (-1)
      = Return [[Some (wrap (PInt 1)); None];
                [Some (wrap (PStr "x")); Some (wrap (PInt 2))]]
      /\ fst (hql_query lab_env "select i.id, i.name from Image i" None
                (blank, lab_world))
         = Return [[PInt 1; PNone]; [PStr "x"; PInt 2]]).
Proof.
  split; [|split; reflexivity].
  intros E query p m w rows Hconn Hrows.
  destruct (hql_query_returns E query p m w rows Hconn Hrows) as (st' & Hrun).
  exists (unwrap_rows rows), st'.
  split; [exact Hrun|apply unwrap_rows_unwrapped].
Qed.

Lemma hql_query_unwraps_cells_witness :
  exists result st',
    hql_query lab_env "select i.id from Image i" None (blank, lab_world)
    = (Return result, st')
    /\ Forall2 (Forall2 unwrapped)
         [[Some (wrap (PInt 1)); None];
          [Some (wrap (PStr "x")); Some (wrap (PInt 2))]]
         result.
Proof.
  apply (proj1 hql_query_unwraps_cells lab_env "select i.id from Image i"
           None blank lab_world).
  - right. reflexivity.
  - reflexivity.
Defined.

(** *** write_csv *)

Lemma append_nil_r (s : string) : s ++ EmptyString = s.
Proof. induction s as [|c s IH]; simpl; [reflexivity|now rewrite IH]. Qed.

Lemma append_assoc (s1 s2 s3 : string) : (s1 ++ s2) ++ s3 = s1 ++ s2 ++ s3.
Proof. induction s1 as [|c s1 IH]; simpl; [reflexivity|now rewrite IH]. Qed.

Lemma join_append_data_plain (field : string) :
  forallb plain_char (list_ascii_of_string field) = true ->
  join_append_data field = Return field.
Proof.
  induction field as [|c field IH]; simpl; [reflexivity|].
  unfold plain_char at 1.
  intros H. apply andb_prop in H. destruct H as [Hc Hrest].
  apply andb_prop in Hc. destruct Hc as [Hnul Hesc].
  apply negb_true_iff in Hnul, Hesc.
  rewrite Hnul, Hesc, (IH Hrest). reflexivity.
Qed.

Lemma length_zero_empty (s : string) :
  (String.length s =? 0)%nat = true <-> s = EmptyString.
Proof.
  destruct s; simpl; split; try reflexivity; discriminate.
Qed.

Lemma join_fields_plain (seq : list pyval) :
  forall (rec : string) (num_fields len : nat),
    forallb plain_field seq = true ->
    (len = 1%nat -> Forall (fun field => field_str field <> EmptyString) seq) ->
    join_fields rec num_fields len seq = Return (rec ++ joined num_fields seq).
Proof.
  induction seq as [|field seq IH]; intros rec num_fields len Hplain Hone.
  - simpl. now rewrite append_nil_r.
  - simpl in Hplain. apply andb_prop in Hplain.
    destruct Hplain as [Hfield Hseq].
    simpl. rewrite (join_append_data_plain _ Hfield).
    assert (Hempty : (String.length (field_str field) =? 0)%nat
                     && (len =? 1)%nat = false).
    { destruct (Nat.eqb_spec len 1) as [Hlen|Hlen];
        [|now rewrite andb_false_r].
      rewrite andb_true_r.
      specialize (Hone Hlen). inversion Hone as [|? ? Hne _]; subst.
      destruct (String.length (field_str field) =? 0)%nat eqn:Hz;
        [|reflexivity].
      apply length_zero_empty in Hz. contradiction. }
    rewrite Hempty.
    rewrite IH.
    + now rewrite !append_assoc.
    + exact Hseq.
    + intros Hlen. specialize (Hone Hlen). now inversion Hone.
Qed.

Lemma joined_concat (seq : list pyval) :
  joined 0 seq = String.concat "," (map field_str seq)
  /\ forall n,
       joined (S n) seq
       = match seq with
         | [] => EmptyString
         | _ => "," ++ String.concat "," (map field_str seq)
         end.
Proof.
  induction seq as [|field seq [_ IH]]; [split; reflexivity|].
  assert (Htail : field_str field ++ joined 1 seq
                  = String.concat "," (map field_str (field :: seq))).
  { rewrite IH. destruct seq as [|field' seq]; simpl.
    - apply append_nil_r.
    - reflexivity. }
  split.
  - simpl. exact Htail.
  - intros n. change (joined (S n) (field :: seq))
      with ("," ++ field_str field ++ joined (S (S n)) seq).
    rewrite (IH (S n)), <- (IH 0%nat), Htail. reflexivity.
Qed.

Lemma join_fields_row (row : list pyval) :
  plain_row row = true ->
  join_fields EmptyString 0 (List.length row) row
  = Return (String.concat "," (map field_str row)).
Proof.
  unfold plain_row. intros H. apply andb_prop in H.
  destruct H as [Hfields Hsingle]. apply negb_true_iff in Hsingle.
  rewrite join_fields_plain.
  - simpl. now rewrite (proj1 (joined_concat row)).
  - exact Hfields.
  - intros Hlen. destruct row as [|field [|field' row]]; try discriminate.
    constructor; [|constructor].
    intros Hempty. rewrite Hempty in Hsingle. discriminate.
Qed.

Lemma same_but_refl (path : string) (w : world) : same_but path w w.
Proof. unfold same_but. auto. Qed.

Lemma same_but_trans (path : string) (w1 w2 w3 : world) :
  same_but path w1 w2 -> same_but path w2 w3 -> same_but path w1 w3.
Proof.
  unfold same_but.
  intros (Hfs & Hu & He & Hn & Ht) (Hfs' & Hu' & He' & Hn' & Ht').
  repeat split; try congruence.
  intros other Hother. now rewrite Hfs', Hfs.
Qed.

Lemma same_but_set_file (path : string) (f : file) (w : world) :
  same_but path w (set_file path f w).
Proof.
  unfold same_but, set_file. simpl. repeat split.
  intros other Hother. apply String.eqb_neq in Hother. now rewrite Hother.
Qed.

Lemma file_data_set_file (path : string) (f : file) (w : world) :
  file_data (set_file path f w) path = Some (data f).
Proof.
  unfold file_data, set_file. simpl. now rewrite String.eqb_refl.
Qed.

Lemma open_wb_truncates (filename : string) (w : world) :
  opens_wb w filename = true ->
  exists w',
    open_wb filename w = (Return tt, w')
    /\ file_data w' filename = Some EmptyString
    /\ same_but filename w w'.
Proof.
  unfold opens_wb, open_wb. intros H. apply andb_prop in H.
  destruct H as [Hnul Hmay]. apply negb_true_iff in Hnul.
  rewrite Hnul, Hmay.
  destruct (fs w filename) as [f|]; eexists; split; try reflexivity;
    (split; [apply file_data_set_file|apply same_but_set_file]).
Qed.

Lemma open_wb_returns (filename : string) (w w' : world) :
  open_wb filename w = (Return tt, w') ->
  opens_wb w filename = true.
Proof.
  unfold opens_wb, open_wb.
  destruct (has_nul filename); [discriminate|].
  destruct (may_open_wb w filename); [reflexivity|discriminate].
Qed.

Lemma open_wb_raises (filename : string) (w w' : world) (e : exn) :
  open_wb filename w = (Raise e, w') ->
  w' = w /\ (e = TypeError nul_byte_message \/ e = IOError filename).
Proof.
  unfold open_wb.
  destruct (has_nul filename); [intros H; inversion H; auto|].
  destruct (may_open_wb w filename); [discriminate|].
  intros H; inversion H; auto.
Qed.

Lemma same_but_streams (path : string) (w w' : world) :
  same_but path w w' -> same_streams w w'.
Proof.
  unfold same_but, same_streams. intros (_ & _ & He & Hn & Ht). auto.
Qed.

Lemma file_write_appends (filename text s : string) (w : world) :
  file_data w filename = Some text ->
  exists w',
    file_write filename s w = (Return tt, w')
    /\ file_data w' filename = Some (text ++ s)
    /\ same_but filename w w'.
Proof.
  unfold file_write, modify, file_data at 1.
  destruct (fs w filename) as [f|]; simpl; [|discriminate].
  intros H; inversion H; subst.
  eexists; split; [reflexivity|].
  split; [apply file_data_set_file|apply same_but_set_file].
Qed.

Lemma writerow_plain (filename text : string) (row : list pyval) (w : world) :
  plain_row row = true ->
  file_data w filename = Some text ->
  exists w',
    writerow filename row w = (Return tt, w')
    /\ file_data w' filename = Some (text ++ csv_line row)
    /\ same_but filename w w'.
Proof.
  intros Hrow Hdata. unfold writerow. rewrite (join_fields_row row Hrow).
  now apply file_write_appends.
Qed.

Lemma writerows_plain (filename : string) (rows : list (list pyval)) :
  forall (text : string) (w : world),
    forallb plain_row rows = true ->
    file_data w filename = Some text ->
    exists w',
      writerows filename rows w = (Return tt, w')
      /\ file_data w' filename = Some (text ++ csv_text rows)
      /\ same_but filename w w'.
Proof.
  induction rows as [|row rows IH]; intros text w Hrows Hdata.
  - exists w. simpl. rewrite append_nil_r.
    split; [reflexivity|]. split; [exact Hdata|apply same_but_refl].
  - simpl in Hrows. apply andb_prop in Hrows. destruct Hrows as [Hrow Hrows].
    destruct (writerow_plain filename text row w Hrow Hdata)
      as (w1 & Hrun1 & Hdata1 & Hsame1).
    destruct (IH (text ++ csv_line row) w1 Hrows Hdata1)
      as (w2 & Hrun2 & Hdata2 & Hsame2).
    exists w2. split; [|split].
    + unfold writerows in *. simpl. unfold bind. now rewrite Hrun1.
    + rewrite Hdata2. unfold csv_text. simpl. now rewrite append_assoc.
    + eapply same_but_trans; eassumption.
Qed.

Lemma header_check_passes (rows : list (list pyval)) (h : list pyval) :
  header_fits (Some h) rows ->
  (0 <? List.length rows)%nat
  && negb (List.length (hd [] rows) =? List.length h)%nat = false.
Proof.
  destruct rows as [|row rows]; simpl; [reflexivity|].
  intros ->. now rewrite Nat.eqb_refl.
Qed.

Lemma write_csv_plain (rows : list (list pyval)) (filename : string)
  (header : option (list pyval)) (w : world) :
  opens_wb w filename = true ->
  header_fits header rows ->
  forallb plain_row (lines_of header rows) = true ->
  exists w',
    write_csv rows filename header w = (Return tt, w')
    /\ file_data w' filename = Some (csv_text (lines_of header rows))
    /\ same_but filename w w'.
Proof.
  intros Hopens Hfits Hplain.
  destruct (open_wb_truncates filename w Hopens)
    as (w0 & Hopen & Hdata0 & Hsame0).
  unfold write_csv.
  destruct header as [h|]; simpl in Hplain.
  - apply andb_prop in Hplain. destruct Hplain as [Hh Hrows].
    destruct (writerow_plain filename EmptyString h w0 Hh Hdata0)
      as (w1 & Hrun1 & Hdata1 & Hsame1).
    destruct (writerows_plain filename rows _ w1 Hrows Hdata1)
      as (w2 & Hrun2 & Hdata2 & Hsame2).
    exists w2. split; [|split].
    + rewrite (header_check_passes rows h Hfits).
      unfold bind, when, ret. rewrite Hopen, Hrun1. exact Hrun2.
    + exact Hdata2.
    + eapply same_but_trans; [exact Hsame0|].
      eapply same_but_trans; eassumption.
  - destruct (writerows_plain filename rows _ w0 Hplain Hdata0)
      as (w2 & Hrun2 & Hdata2 & Hsame2).
    exists w2. split; [|split].
    + unfold bind, ret. rewrite Hopen. exact Hrun2.
    + exact Hdata2.
    + eapply same_but_trans; eassumption.
Qed.

(** C7. With a header, at least one row, and a first row whose length is
    not the header's, [write_csv] raises [ValueError] (an exception the
    caller can catch, not [SystemExit]) and leaves the world as it was: no
    file is created or changed. *)
Theorem write_csv_rejects_mismatched_header :
  forall (rows : list (list pyval)) (filename : string) (h row : list pyval)
         (rest : list (list pyval)) (w : world),
    rows = row :: rest ->
    List.length row <> List.length h ->
    write_csv rows filename (Some h) w
    = (Raise (ValueError header_message), w).
Proof.
  intros rows filename h row rest w -> Hlen.
  apply Nat.eqb_neq in Hlen.
  unfold write_csv. simpl. rewrite Hlen. reflexivity.
Qed.

Lemma write_csv_rejects_mismatched_header_witness :
  write_csv [[PInt 1; PInt 2]] "wells.csv" (Some [PStr "a"]) lab_world
  = (Raise (ValueError header_message), lab_world).
Proof.
  apply (write_csv_rejects_mismatched_header [[PInt 1; PInt 2]] "wells.csv"
           [PStr "a"] [PInt 1; PInt 2] [] lab_world).
  - reflexivity.
  - simpl. lia.
Defined.

(** C8. For a call that passes the length check, whose target can be
    opened for writing and whose lines the unquoted writer accepts,
    [write_csv] returns and leaves at the target path, whatever was there
    before, exactly the header line (when a header is given) followed by
    one line per row in input order, each line being the fields as they are
    separated by commas; the error stream and the gateway are not touched.
    Header a,b with rows 1,2 and 3,4 gives the lines a,b then 1,2 then
    3,4. *)
Theorem write_csv_writes_header_then_rows :
  (forall (rows : list (list pyval)) (filename : string)
          (header : option (list pyval)) (w : world),
      opens_wb w filename = true ->
      header_fits header rows ->
      forallb plain_row (lines_of header rows) = true ->
      exists w',
        write_csv rows filename header w = (Return tt, w')
        /\ file_data w' filename = Some (csv_text (lines_of header rows))
        /\ same_streams w w')
  /\ (let '(r, w') :=
        write_csv [[PInt 1; PInt 2]; [PInt 3; PInt 4]] "wells.csv"
                  (Some [PStr "a"; PStr "b"]) bench_world in
      r = Return tt
      /\ file_data w' "wells.csv"
         = Some ("a,b" ++ lineterminator ++ "1,2" ++ lineterminator
                 ++ "3,4" ++ lineterminator)).
Proof.
  split.
  - intros rows filename header w Hopens Hfits Hplain.
    destruct (write_csv_plain rows filename header w Hopens Hfits Hplain)
      as (w' & Hrun & Hdata & Hsame).
    exists w'. split; [exact Hrun|]. split; [exact Hdata|].
    eapply same_but_streams; eassumption.
  - split; reflexivity.
Qed.

Lemma write_csv_writes_header_then_rows_witness :
  exists w',
    write_csv [[PStr "B7"; PInt 12]; [PStr "C1"; PNone]]
              "/home/ada/old.csv"
              (Some [PStr "well"; PStr "count"]) bench_world
    = (Return tt, w')
    /\ file_data w' "/home/ada/old.csv"
       = Some (csv_text [[PStr "well"; PStr "count"];
                         [PStr "B7"; PInt 12]; [PStr "C1"; PNone]])
    /\ same_streams bench_world w'.
Proof.
  apply (proj1 write_csv_writes_header_then_rows).
  - reflexivity.
  - reflexivity.
  - reflexivity.
Defined.

(** Two calls that pass the length check and do not write their rows: a
    field with a comma makes the writer raise after the old file has been
    emptied; a target that is a directory makes [open] raise and nothing is
    written. *)
Lemma write_csv_checked_call_fails :
  (let '(r, w') :=
     write_csv [[PStr "C1, edge"; PInt 3]] "/home/ada/old.csv"
               (Some [PStr "well"; PStr "count"]) bench_world in
   r = Raise (CsvError "need to escape, but no escapechar set")
   /\ file_data w' "/home/ada/old.csv"
      = Some ("well,count" ++ lineterminator)
   /\ file_data w' "/home/ada/old.csv"
      <> Some (csv_text [[PStr "well"; PStr "count"];
                         [PStr "C1, edge"; PInt 3]]))
  /\ write_csv [[PInt 1; PInt 2]] "/home/ada/plates"
               (Some [PStr "a"; PStr "b"]) bench_world
     = (Raise (IOError "/home/ada/plates"), bench_world).
Proof.
  split; [|reflexivity].
  repeat split. discriminate.
Qed.

Lemma join_append_data_raises (field : string) (e : exn) :
  join_append_data field = Raise e -> exists msg, e = CsvError msg.
Proof.
  induction field as [|c field IH]; simpl; [discriminate|].
  destruct (Ascii.eqb c NUL); [discriminate|].
  destruct (want_escape c).
  - intros H; inversion H. eauto.
  - destruct (join_append_data field); [discriminate|].
    intros H; inversion H; subst. now apply IH.
Qed.

Lemma join_fields_raises (seq : list pyval) :
  forall (rec : string) (num_fields len : nat) (e : exn),
    join_fields rec num_fields len seq = Raise e ->
    exists msg, e = CsvError msg.
Proof.
  induction seq as [|field seq IH]; intros rec num_fields len e; simpl;
    [discriminate|].
  destruct (join_append_data (field_str field)) as [copied|e'] eqn:Hcopy.
  - destruct ((String.length copied =? 0)%nat && (len =? 1)%nat).
    + intros H; inversion H. eauto.
    + apply IH.
  - intros H; inversion H; subst.
    eapply join_append_data_raises; eassumption.
Qed.

(** C10. With a header and no rows, [write_csv] never raises the
    [ValueError] of the length check, whatever the header's length; and
    when the target can be opened for writing and the unquoted writer
    accepts the header (no field holds a comma, a double quote, CR, LF or
    NUL, and the header is not one empty field), it returns and the file
    holds exactly the header line. *)
Theorem write_csv_header_only :
  (forall (h : list pyval) (filename : string) (w : world) (msg : string),
      fst (write_csv [] filename (Some h) w) <> Raise (ValueError msg))
  /\ (forall (h : list pyval) (filename : string) (w : world),
         opens_wb w filename = true ->
         plain_row h = true ->
         exists w',
           write_csv [] filename (Some h) w = (Return tt, w')
           /\ file_data w' filename = Some (csv_line h)
           /\ same_streams w w').
Proof.
  split.
  - intros h filename w msg.
    unfold write_csv, writerows, writerow. simpl.
    unfold bind, when, ret.
    destruct (open_wb filename w) as [[[]|e] w0] eqn:Hopen.
    + destruct (join_fields EmptyString 0 (List.length h) h) as [rec|e]
        eqn:Hrec.
      * unfold file_write, modify. simpl. discriminate.
      * unfold raise. simpl. intros H; inversion H; subst.
        destruct (join_fields_raises _ _ _ _ _ Hrec) as (msg' & Hmsg).
        discriminate.
    + simpl. intros H; inversion H; subst.
      destruct (open_wb_raises _ _ _ _ Hopen) as (_ & [He|He]);
        discriminate.
  - intros h filename w Hopens Hplain.
    destruct (write_csv_plain [] filename (Some h) w)
      as (w' & Hrun & Hdata & Hsame).
    + exact Hopens.
    + exact I.
    + simpl. now rewrite Hplain.
    + exists w'. split; [exact Hrun|].
      split; [|eapply same_but_streams; eassumption].
      rewrite Hdata. unfold csv_text. simpl. now rewrite append_nil_r.
Qed.

Lemma write_csv_header_only_witness :
  exists w',
    write_csv [] "wells.csv" (Some [PStr "well"; PStr "count"; PStr "mean"])
              bench_world
    = (Return tt, w')
    /\ file_data w' "wells.csv"
       = Some (csv_line [PStr "well"; PStr "count"; PStr "mean"])
    /\ same_streams bench_world w'.
Proof.
  apply (proj2 write_csv_header_only); reflexivity.
Defined.

(** A header with a comma in a field: the writer raises, the file has been
    created and is empty, and it does not hold the header line. A header
    for a target that is a directory: [open] raises and nothing is
    written. *)
Lemma write_csv_header_with_comma :
  (let '(r, w') :=
     write_csv [] "wells.csv" (Some [PStr "a,b"]) bench_world in
   r = Raise (CsvError "need to escape, but no escapechar set")
   /\ file_data w' "wells.csv" = Some EmptyString
   /\ file_data w' "wells.csv" <> Some (csv_line [PStr "a,b"]))
  /\ write_csv [] "/home/ada/plates" (Some [PStr "well"]) bench_world
     = (Raise (IOError "/home/ada/plates"), bench_world).
Proof.
  split; [|reflexivity].
  repeat split. discriminate.
Qed.

(** ** Further properties of construction *)

Local Opaque Z.land missing_config_message permissions_message.

Lemma session_store_takes_precedence_holds (E : env) (w : world)
  (h u s p : pyval) :
  get_current E = (h, u, s, p) ->
  s <> PNone ->
  new E None w = (Return (mkmanager None s h p u PNone), w).
Proof.
  intros Hcur Hs.
  unfold new, __init__. cbn. rewrite Hcur. cbn.
  destruct s; [congruence| |]; reflexivity.
Qed.

Lemma init_reaches_read (E : env) (w : world)
  (config_file : option string) (f : file) :
  uses_config_file E config_file = true ->
  fs w (config_path E config_file) = Some f ->
  is_regular f = true ->
  Z.land (st_mode f) 63 = 0 ->
  new E config_file w
  = match parse_ini E (data f) with
    | None =>
        (Raise (ParsingError (config_path E config_file)),
         logged (config_file_calls (config_path E config_file)) w)
    | Some config =>
        match read_credentials E config with
        | Return (h, p, u, pw) =>
            (Return (mkmanager None PNone (PStr h) (PInt p) (PStr u)
                               (PStr pw)),
             logged (config_file_calls (config_path E config_file)) w)
        | Raise e =>
            (Raise e, logged (config_file_calls (config_path E config_file)) w)
        end
    end.
Proof.
  intros Huse Hfs Hreg Hmode.
  apply Z.eqb_eq in Hmode.
  unfold uses_config_file, session_uuid in Huse.
  unfold config_path, logged, config_file_calls, read_credentials in *.
  unfold new, __init__, RawConfigParser_read.
  destruct config_file as [path|]; simpl in Huse, Hfs |- *.
  - run_init. repeat (progress (rewrite ?Hfs, ?Hreg, ?Hmode; run_init)).
    rewrite <- !app_assoc. simpl.
    destruct (parse_ini E (data f)) as [config|]; [|reflexivity].
    run_init.
    repeat (break_match; run_init; try reflexivity).
  - destruct (get_current E) as [[[h0 u0] s0] p0].
    destruct s0; try discriminate. run_init.
    repeat (progress (rewrite ?Hfs, ?Hreg, ?Hmode; run_init)).
    rewrite <- !app_assoc. simpl.
    destruct (parse_ini E (data f)) as [config|]; [|reflexivity].
    run_init.
    repeat (break_match; run_init; try reflexivity).
Qed.

Lemma config_get_raises (config : ini) (section option : string) (e : exn) :
  config_get config section option = Raise e ->
  e = NoSectionError section \/ e = NoOptionError option section.
Proof.
  unfold config_get.
  repeat (break_match; try discriminate);
    intros H; inversion H; auto.
Qed.

Lemma config_getint_raises (E : env) (config : ini) (section option : string)
  (e : exn) :
  config_getint E config section option = Raise e ->
  e = NoSectionError section \/ e = NoOptionError option section
  \/ exists msg, e = ValueError msg.
Proof.
  unfold config_getint.
  destruct (config_get config section option) as [s|e'] eqn:Hget.
  - destruct (int_of_str E s); [discriminate|].
    intros H; inversion H. eauto.
  - intros H; inversion H; subst.
    destruct (config_get_raises _ _ _ _ Hget); auto.
Qed.

Lemma read_credentials_raises (E : env) (config : ini) (e : exn) :
  read_credentials E config = Raise e ->
  forall code, e <> SystemExit code.
Proof.
  unfold read_credentials.
  destruct (config_get config _ "host") eqn:Hh.
  2: { intros H; inversion H; subst.
       destruct (config_get_raises _ _ _ _ Hh); subst; discriminate. }
  destruct (config_getint E config _ "port") eqn:Hp.
  2: { intros H; inversion H; subst.
       destruct (config_getint_raises _ _ _ _ _ Hp) as [->|[->|[msg ->]]];
         discriminate. }
  destruct (config_get config _ "username") eqn:Hu.
  2: { intros H; inversion H; subst.
       destruct (config_get_raises _ _ _ _ Hu); subst; discriminate. }
  destruct (config_get config _ "password") eqn:Hpw; [discriminate|].
  intros H; inversion H; subst.
  destruct (config_get_raises _ _ _ _ Hpw); subst; discriminate.
Qed.

(** X1. When the configuration file is the source of credentials, passes
    the existence and permission checks, can be read and holds the four
    keys, the manager's HOST, PORT, USERNAME and PASSWORD are the file's
    values (PORT as an integer), SUUID is [None] whatever the session store
    held, no handle exists yet, and nothing is written to the error stream.
    (In [world] a file that exists can be read.) *)
Theorem config_file_credentials :
  forall (E : env) (w : world) (config_file : option string) (f : file)
         (config : ini) (h u pw : string) (p : Z),
    uses_config_file E config_file = true ->
    fs w (config_path E config_file) = Some f ->
    is_regular f = true ->
    Z.land (st_mode f) 63 = 0 ->
    parse_ini E (data f) = Some config ->
    config_get config "OMEROCredentials" "host" = Return h ->
    config_getint E config "OMEROCredentials" "port" = Return p ->
    config_get config "OMEROCredentials" "username" = Return u ->
    config_get config "OMEROCredentials" "password" = Return pw ->
    new E config_file w
    = (Return (mkmanager None PNone (PStr h) (PInt p) (PStr u) (PStr pw)),
       logged (config_file_calls (config_path E config_file)) w).
Proof.
  intros E w config_file f config h u pw p Huse Hfs Hreg Hmode Hparse
    Hh Hp Hu Hpw.
  rewrite (init_reaches_read E w config_file f Huse Hfs Hreg Hmode).
  rewrite Hparse. unfold read_credentials. now rewrite Hh, Hp, Hu, Hpw.
Qed.

Lemma config_file_credentials_witness :
  new office_env None office_world
  = (Return (mkmanager None PNone (PStr "omero.lab.example") (PInt 4064)
                       (PStr "ada") (PStr "s3cret")),
     logged (config_file_calls "/home/ada/.omero/config") office_world).
Proof.
  apply (config_file_credentials office_env office_world None
           (mkfile true 33152 "credentials") office_ini);
    reflexivity.
Defined.

(** X2. A configuration file that passes the checks but does not parse, or
    lacks the section or one of the four keys, or has a port that is not an
    integer, does not end construction through [sys.exit]: the parser's or
    the first failing lookup's exception (in the order host, port,
    username, password) reaches the caller and the error stream is left
    untouched. *)
Theorem config_contents_errors_propagate :
  forall (E : env) (w : world) (config_file : option string) (f : file),
    uses_config_file E config_file = true ->
    fs w (config_path E config_file) = Some f ->
    is_regular f = true ->
    Z.land (st_mode f) 63 = 0 ->
    (parse_ini E (data f) = None ->
     new E config_file w
     = (Raise (ParsingError (config_path E config_file)),
        logged (config_file_calls (config_path E config_file)) w))
    /\ (forall config e,
           parse_ini E (data f) = Some config ->
           read_credentials E config = Raise e ->
           new E config_file w
           = (Raise e,
              logged (config_file_calls (config_path E config_file)) w)
           /\ forall code, e <> SystemExit code).
Proof.
  intros E w config_file f Huse Hfs Hreg Hmode.
  rewrite (init_reaches_read E w config_file f Huse Hfs Hreg Hmode).
  split.
  - intros ->. reflexivity.
  - intros config e -> Hread. rewrite Hread.
    split; [reflexivity|].
    eapply read_credentials_raises; eassumption.
Qed.

Lemma config_contents_errors_propagate_witness :
  new office_env (Some "~/notes.txt") office_world
  = (Raise (ParsingError "/home/ada/notes.txt"),
     logged (config_file_calls "/home/ada/notes.txt") office_world)
  /\ new office_env (Some "~/draft.ini") office_world
     = (Raise (NoOptionError "port" "OMEROCredentials"),
        logged (config_file_calls "/home/ada/draft.ini") office_world).
Proof.
  split.
  - apply (proj1 (config_contents_errors_propagate office_env office_world
                    (Some "~/notes.txt") (mkfile true 33152 "dear diary")
                    eq_refl eq_refl eq_refl eq_refl)).
    reflexivity.
  - apply (proj2 (config_contents_errors_propagate office_env office_world
                    (Some "~/draft.ini") (mkfile true 33152 "host only")
                    eq_refl eq_refl eq_refl eq_refl) keyless_ini).
    + reflexivity.
    + reflexivity.
Defined.

(** X3. When the configuration file is the source of credentials and its
    path names something that is not a regular file (a directory, say),
    construction ends in [SystemExit(1)] with the does-not-exist message,
    whatever the permission bits; [os.stat] is not reached. *)
Theorem non_regular_config_is_fatal :
  forall (E : env) (w : world) (config_file : option string) (f : file),
    uses_config_file E config_file = true ->
    fs w (config_path E config_file) = Some f ->
    is_regular f = false ->
    new E config_file w
    = (Raise (SystemExit 1),
       mkworld (fs w) (umask w)
         (stderr w ++ missing_config_message (config_path E config_file))
         (next_id w)
         (trace w ++ [os_path_exists_call (config_path E config_file);
                      os_path_isfile_call (config_path E config_file)])).
Proof.
  intros E w config_file f Huse Hfs Hreg.
  unfold uses_config_file, session_uuid in Huse.
  unfold config_path in *.
  unfold new, __init__.
  destruct config_file as [path|]; simpl in Huse, Hfs |- *.
  - run_init. repeat (progress (rewrite ?Hfs, ?Hreg; run_init)).
    now rewrite <- !app_assoc.
  - destruct (get_current E) as [[[h u] s] p].
    destruct s; try discriminate. run_init.
    repeat (progress (rewrite ?Hfs, ?Hreg; run_init)).
    now rewrite <- !app_assoc.
Qed.

Lemma non_regular_config_is_fatal_witness :
  new office_env (Some "~/plates") office_world
  = (Raise (SystemExit 1),
     mkworld (fs office_world) 18
       (missing_config_message "/home/ada/plates") 0
       [os_path_exists_call "/home/ada/plates";
        os_path_isfile_call "/home/ada/plates"]).
Proof.
  apply (non_regular_config_is_fatal office_env office_world
           (Some "~/plates") (mkfile false 16832 EmptyString));
    reflexivity.
Defined.

Lemma explicit_path_password_mode (E : env) (path : string) (w : world)
  m w' :
  new E (Some path) w = (Return m, w') ->
  SUUID m = PNone /\ USERNAME m <> PNone /\ PASSWORD m <> PNone.
Proof.
  unfold new, __init__, RawConfigParser_read. simpl. run_init.
  repeat (break_match; simpl; try discriminate).
  all: intros H; inversion H; subst; simpl.
  all: repeat split; discriminate.
Qed.

(** X4. With an explicit path the session store plays no part:
    construction gives the same outcome and the same world whatever the
    store reports, an active session included, and a manager it returns
    has no session id and has a username and a password. *)
Theorem explicit_path_ignores_session_store :
  forall (E : env) (props : pyval * pyval * pyval * pyval) (path : string)
         (w : world),
    new (with_session E props) (Some path) w = new E (Some path) w
    /\ (forall m w',
           new (with_session E props) (Some path) w = (Return m, w') ->
           SUUID m = PNone /\ USERNAME m <> PNone /\ PASSWORD m <> PNone).
Proof.
  intros E props path w. split; [reflexivity|].
  intros m w'. apply explicit_path_password_mode.
Qed.

Lemma explicit_path_ignores_session_store_witness :
  SUUID (mkmanager None PNone (PStr "omero.lab.example") (PInt 4064)
                   (PStr "ada") (PStr "s3cret")) = PNone
  /\ USERNAME (mkmanager None PNone (PStr "omero.lab.example") (PInt 4064)
                         (PStr "ada") (PStr "s3cret")) <> PNone
  /\ PASSWORD (mkmanager None PNone (PStr "omero.lab.example") (PInt 4064)
                         (PStr "ada") (PStr "s3cret")) <> PNone.
Proof.
  apply (proj2 (explicit_path_ignores_session_store office_env
                  (get_current lab_env) "~/.omero/config" office_world)
           _ (logged (config_file_calls "/home/ada/.omero/config")
                office_world)).
  reflexivity.
Defined.

Lemma init_passive (E : env) (config_file : option string) (w : world) r m w' :
  __init__ E config_file (blank, w) = (r, (m, w')) ->
  conn m = None
  /\ fs w' = fs w /\ umask w' = umask w /\ next_id w' = next_id w
  /\ (exists events,
         trace w' = (trace w ++ events)%list
         /\ forallb is_fs_event events = true)
  /\ (forall a, r = Return a -> stderr w' = stderr w).
Proof.
  assert (Hnil : forall l : list event, l = (l ++ [])%list)
    by (intros; now rewrite app_nil_r).
  unfold __init__, RawConfigParser_read.
  destruct config_file as [path|]; simpl.
  - run_init.
    repeat (break_match; run_init; try discriminate).
    all: intros H; inversion H; subst; simpl.
    all: repeat split; try discriminate; try reflexivity.
    all: rewrite <- ?app_assoc; simpl; eexists; split;
           [reflexivity|reflexivity].
  - destruct (get_current E) as [[[h u] s] p]. run_init.
    destruct s; run_init.
    2,3: intros H; inversion H; subst; simpl;
         repeat split; exists []; split; [apply Hnil|reflexivity].
    repeat (break_match; run_init; try discriminate).
    all: intros H; inversion H; subst; simpl.
    all: repeat split; try discriminate; try reflexivity.
    all: rewrite <- ?app_assoc; simpl; eexists; split;
           [reflexivity|reflexivity].
Qed.

(** X5. Construction is passive: whatever its outcome, [__init__] (the
    session store's own doings aside) leaves every file as it was, creates
    no gateway, and the only calls it makes are to the file system; when it
    returns a manager, the manager has no handle and nothing has been
    written to the error stream. *)
Theorem construction_is_passive :
  forall (E : env) (config_file : option string) (w : world)
         (r : outcome OMEROConnectionManager) (w' : world),
    new E config_file w = (r, w') ->
    fs w' = fs w
    /\ next_id w' = next_id w
    /\ (exists events,
           trace w' = (trace w ++ events)%list
           /\ forallb is_fs_event events = true)
    /\ (forall m, r = Return m -> stderr w' = stderr w /\ conn m = None).
Proof.
  intros E config_file w r w'. unfold new.
  destruct (__init__ E config_file (blank, w)) as [r0 [m0 w0]] eqn:Hinit.
  destruct (init_passive E config_file w r0 m0 w0 Hinit)
    as (Hconn & Hfs & _ & Hid & Hev & Herr).
  destruct r0 as [a|e]; intros H; inversion H; subst.
  - repeat split; try assumption.
    + now apply (Herr a).
    + inversion H0. now subst.
  - repeat split; try assumption; discriminate.
Qed.

Lemma construction_is_passive_witness :
  fs (logged (config_file_calls "/home/ada/.omero/config") office_world)
  = fs office_world
  /\ next_id (logged (config_file_calls "/home/ada/.omero/config")
                office_world)
     = next_id office_world
  /\ (exists events,
         trace (logged (config_file_calls "/home/ada/.omero/config")
                  office_world)
         = (trace office_world ++ events)%list
         /\ forallb is_fs_event events = true)
  /\ (forall m,
         Return (mkmanager None PNone (PStr "omero.lab.example") (PInt 4064)
                           (PStr "ada") (PStr "s3cret")) = Return m ->
         stderr (logged (config_file_calls "/home/ada/.omero/config")
                   office_world)
         = stderr office_world
         /\ conn m = None).
Proof.
  apply (construction_is_passive office_env None office_world).
  reflexivity.
Defined.

(** X6. Tearing down an object on which [__init__] has run, whether it
    returned or raised, does nothing: [conn] is set to [None] before
    anything can fail, so [__del__] finds no handle and makes no call. *)
Theorem del_after_init_is_noop :
  forall (E : env) (config_file : option string) (w : world)
         (r : outcome unit) (m : OMEROConnectionManager) (w' : world),
    __init__ E config_file (blank, w) = (r, (m, w')) ->
    __del__ (m, w') = (Return tt, (m, w')).
Proof.
  intros E config_file w r m w' Hinit.
  apply disconnect_without_handle.
  now destruct (init_passive E config_file w r m w' Hinit).
Qed.

Lemma del_after_init_is_noop_witness :
  let m := mkmanager None PNone (PStr "omero.lab.example") PNone
                     (PStr "ada") PNone in
  let w' := mkworld (fs lab_world) 18
              (permissions_message "/home/ada/.omero/config") 0
              [os_path_exists_call "/home/ada/.omero/config";
               os_path_isfile_call "/home/ada/.omero/config";
               os_stat_call "/home/ada/.omero/config"] in
  __del__ (m, w') = (Return tt, (m, w')).
Proof.
  intros m w'.
  apply (del_after_init_is_noop office_env None lab_world
           (Raise (SystemExit 1)) m w').
  reflexivity.
Defined.

Local Transparent Z.land missing_config_message permissions_message.

(** ** Further properties of connect, disconnect and hql_query *)

Lemma connect_fresh (E : env) (m : OMEROConnectionManager) (w : world) :
  conn m = None ->
  let g := mkgateway (next_id w) (USERNAME m) (PASSWORD m) (HOST m)
                     (PORT m) in
  let calls := [BlitzGateway_call (next_id w) (USERNAME m) (PASSWORD m)
                  (HOST m) (PORT m);
                gateway_connect_call (next_id w) (SUUID m)] in
  connect E (m, w)
  = if server_accepts E (USERNAME m) (PASSWORD m) (HOST m) (PORT m) (SUUID m)
    then (Return (Some g),
          (set_conn (Some g) m,
           mkworld (fs w) (umask w) (stderr w) (S (next_id w))
                   (trace w ++ calls)))
    else (Raise (SystemExit 1),
          (set_conn (Some g) m,
           mkworld (fs w) (umask w) (stderr w ++ connection_message)
                   (S (next_id w)) (trace w ++ calls))).
Proof.
  intros Hconn. unfold connect. run_method. rewrite Hconn.
  destruct (server_accepts E _ _ _ _ _); simpl; now rewrite <- !app_assoc.
Qed.

(** X7. When the server refuses a new connection, [connect] writes its
    message, ends in [SystemExit(1)] and leaves the refused handle on the
    manager; a program that catches the exit and calls [connect] again gets
    that handle back with no second attempt to connect. *)
Theorem refused_handle_is_kept :
  forall (E : env) (m : OMEROConnectionManager) (w : world),
    conn m = None ->
    server_accepts E (USERNAME m) (PASSWORD m) (HOST m) (PORT m) (SUUID m)
    = false ->
    exists g w',
      connect E (m, w) = (Raise (SystemExit 1), (set_conn (Some g) m, w'))
      /\ stderr w' = stderr w ++ connection_message
      /\ connect E (set_conn (Some g) m, w')
         = (Return (Some g), (set_conn (Some g) m, w')).
Proof.
  intros E m w Hconn Hrefused.
  rewrite (connect_fresh E m w Hconn), Hrefused.
  do 2 eexists. split; [reflexivity|]. split; [reflexivity|].
  now apply connect_existing.
Qed.

Lemma refused_handle_is_kept_witness :
  let m := mkmanager None PNone (PStr "omero.lab.example") (PInt 4064)
                     (PStr "ada") (PStr "guess") in
  exists g w',
    connect office_env (m, office_world)
    = (Raise (SystemExit 1), (set_conn (Some g) m, w'))
    /\ stderr w' = stderr office_world ++ connection_message
    /\ connect office_env (set_conn (Some g) m, w')
       = (Return (Some g), (set_conn (Some g) m, w')).
Proof.
  intros m.
  apply (refused_handle_is_kept office_env m office_world); reflexivity.
Defined.

(** X8. On a manager with no handle and a server that accepts it,
    [connect] followed by [disconnect] gives the manager back as it was;
    the world has seen one gateway built from the manager's fields, one
    connect and one soft close of that same gateway, and nothing on the
    error stream. *)
Theorem connect_then_disconnect_restores :
  forall (E : env) (m : OMEROConnectionManager) (w : world),
    conn m = None ->
    server_accepts E (USERNAME m) (PASSWORD m) (HOST m) (PORT m) (SUUID m)
    = true ->
    exists g st1 w2,
      connect E (m, w) = (Return (Some g), st1)
      /\ disconnect st1 = (Return tt, (m, w2))
      /\ trace w2
         = (trace w ++ [BlitzGateway_call (gateway_id g) (USERNAME m)
                          (PASSWORD m) (HOST m) (PORT m);
                        gateway_connect_call (gateway_id g) (SUUID m);
                        seppuku_call (gateway_id g) true])%list
      /\ stderr w2 = stderr w
      /\ fs w2 = fs w.
Proof.
  intros E m w Hconn Haccepts.
  rewrite (connect_fresh E m w Hconn), Haccepts.
  assert (Hback : forall g, set_conn None (set_conn (Some g) m) = m).
  { intros g. destruct m; simpl in *; subst. reflexivity. }
  do 3 eexists. split; [reflexivity|].
  unfold disconnect. run_method. unfold modify. simpl. rewrite Hback.
  split; [reflexivity|]. simpl.
  split; [now rewrite <- !app_assoc|]. split; reflexivity.
Qed.

Lemma connect_then_disconnect_restores_witness :
  let m := mkmanager None PNone (PStr "omero.lab.example") (PInt 4064)
                     (PStr "ada") (PStr "s3cret") in
  exists g st1 w2,
    connect office_env (m, office_world) = (Return (Some g), st1)
    /\ disconnect st1 = (Return tt, (m, w2))
    /\ trace w2
       = (trace office_world
          ++ [BlitzGateway_call (gateway_id g) (USERNAME m) (PASSWORD m)
                (HOST m) (PORT m);
              gateway_connect_call (gateway_id g) (SUUID m);
              seppuku_call (gateway_id g) true])%list
    /\ stderr w2 = stderr office_world
    /\ fs w2 = fs office_world.
Proof.
  intros m.
  apply (connect_then_disconnect_restores office_env m office_world);
    reflexivity.
Defined.

(** X9. A connect after a disconnect does not revive the old handle: it
    builds a new gateway, distinct from the one closed. *)
Theorem reconnect_builds_new_gateway :
  forall (E : env) (m : OMEROConnectionManager) (w : world) g1 st1 st2 g2 st3,
    conn m = None ->
    connect E (m, w) = (Return (Some g1), st1) ->
    disconnect st1 = (Return tt, st2) ->
    connect E st2 = (Return (Some g2), st3) ->
    gateway_id g2 <> gateway_id g1
    /\ conn (fst st3) = Some g2.
Proof.
  intros E m w g1 st1 st2 g2 st3 Hconn H1 H2 H3.
  rewrite (connect_fresh E m w Hconn) in H1.
  destruct (server_accepts E _ _ _ _ _); [|discriminate].
  inversion H1; subst; clear H1.
  unfold disconnect in H2. revert H2. run_method.
  intros H2; inversion H2; subst; clear H2.
  rewrite connect_fresh in H3 by reflexivity.
  simpl in H3.
  destruct (server_accepts E _ _ _ _ _); [|discriminate].
  inversion H3; subst; simpl. split; [lia|reflexivity].
Qed.

Lemma reconnect_builds_new_gateway_witness :
  let m := mkmanager None PNone (PStr "omero.lab.example") (PInt 4064)
                     (PStr "ada") (PStr "s3cret") in
  let g1 := mkgateway 0 (USERNAME m) (PASSWORD m) (HOST m) (PORT m) in
  let g2 := mkgateway 1 (USERNAME m) (PASSWORD m) (HOST m) (PORT m) in
  let st1 := snd (connect office_env (m, office_world)) in
  let st2 := snd (disconnect st1) in
  let st3 := snd (connect office_env st2) in
  gateway_id g2 <> gateway_id g1 /\ conn (fst st3) = Some g2.
Proof.
  intros m g1 g2 st1 st2 st3.
  apply (reconnect_builds_new_gateway office_env m office_world
           g1 st1 st2 g2 st3); reflexivity.
Defined.

Lemma hql_query_connected (E : env) (query : string) (p : option params)
  (m : OMEROConnectionManager) (w : world) (g : gateway) :
  conn m = Some g ->
  hql_query E query p (m, w)
  = (match server_projection E query (params_or_default p) (-1) with
     | Return rows => Return (unwrap_rows rows)
     | Raise e => Raise e
     end,
     (m, logged (query_calls (gateway_id g) query (params_or_default p)) w)).
Proof.
  intros Hconn. unfold hql_query, params_or_default, logged, query_calls.
  run_method. rewrite Hconn. simpl. rewrite Hconn.
  rewrite <- !app_assoc. simpl.
  destruct (server_projection E query _ (-1)); reflexivity.
Qed.

(** X10. On a manager that holds a handle, [hql_query] builds no gateway
    and makes no connect call: it sets the group to -1 on that handle, gets
    the query service and runs the projection with the caller's parameters
    (an empty set when none are given), in that order, and leaves the
    manager as it was; an error of the query service reaches the caller
    with the handle still in place. *)
Theorem hql_query_reuses_handle :
  forall (E : env) (query : string) (p : option params)
         (m : OMEROConnectionManager) (w : world) (g : gateway),
    conn m = Some g ->
    hql_query E query p (m, w)
    = (match server_projection E query (params_or_default p) (-1) with
       | Return rows => Return (unwrap_rows rows)
       | Raise e => Raise e
       end,
       (m, logged (query_calls (gateway_id g) query (params_or_default p))
             w)).
Proof.
  intros E query p m w g. apply hql_query_connected.
Qed.

Lemma hql_query_reuses_handle_witness :
  let g := mkgateway 0 (PStr "ada") (PStr "s3cret")
                     (PStr "omero.lab.example") (PInt 4064) in
  let m := mkmanager (Some g) PNone (PStr "omero.lab.example") (PInt 4064)
                     (PStr "ada") (PStr "s3cret") in
  hql_query office_env "select w.id from Well w" None (m, office_world)
  = (Return [[PInt 1; PNone]; [PStr "x"; PInt 2]],
     (m, logged (query_calls 0 "select w.id from Well w" (ParametersI []))
           office_world)).
Proof.
  intros g m.
  apply (hql_query_reuses_handle office_env "select w.id from Well w" None
           m office_world g).
  reflexivity.
Defined.

Lemma hql_query_via_connect :
  forall (E : env) (query : string) (p : option params)
         (st : OMEROConnectionManager * world),
    hql_query E query p st
    = match connect E st with
      | (Return _, st1) => hql_query E query p st1
      | (Raise e, st1) => (Raise e, st1)
      end.
Proof.
  intros E query p [m w].
  destruct (conn m) as [g|] eqn:Hconn.
  - now rewrite (connect_existing E m w g Hconn).
  - rewrite (connect_fresh E m w Hconn).
    unfold hql_query at 1. unfold bind at 1. unfold self at 1.
    unfold bind at 1. unfold when at 1. simpl. rewrite Hconn. simpl.
    unfold bind at 1. rewrite (connect_fresh E m w Hconn).
    destruct (server_accepts E _ _ _ _ _).
    + rewrite hql_query_connected with (g := mkgateway (next_id w)
        (USERNAME m) (PASSWORD m) (HOST m) (PORT m)) by reflexivity.
      unfold params_or_default, logged, query_calls.
      run_method. rewrite <- !app_assoc. simpl.
      destruct (server_projection E query _ (-1)); reflexivity.
    + reflexivity.
Qed.

(** X11. [hql_query] is [connect] followed by the query on the state
    [connect] leaves: when [connect] returns, the query runs on the handle
    now on the manager; when [connect] raises (the server refused), the
    exception reaches the caller and no query call is made. *)
Theorem hql_query_connects_on_demand :
  forall (E : env) (query : string) (p : option params)
         (st : OMEROConnectionManager * world),
    hql_query E query p st
    = match connect E st with
      | (Return _, st1) => hql_query E query p st1
      | (Raise e, st1) => (Raise e, st1)
      end.
Proof.
  exact hql_query_via_connect.
Qed.

(** X12. After [hql_query], whatever its outcome, the manager holds a
    handle. When it held one before the call, the manager is unchanged (it
    still holds that handle) and no gateway was built; when it held none,
    exactly one gateway was built and it is the one now held. So a series
    of queries runs on one connection. *)
Theorem hql_query_leaves_handle :
  forall (E : env) (query : string) (p : option params)
         (m : OMEROConnectionManager) (w : world)
         r (m' : OMEROConnectionManager) (w' : world),
    hql_query E query p (m, w) = (r, (m', w')) ->
    (exists g', conn m' = Some g')
    /\ (forall g, conn m = Some g ->
                  m' = m /\ conn m' = Some g /\ next_id w' = next_id w)
    /\ (conn m = None ->
        exists g',
          conn m' = Some g'
          /\ gateway_id g' = next_id w
          /\ next_id w' = S (next_id w)).
Proof.
  intros E query p m w r m' w'.
  rewrite hql_query_via_connect.
  destruct (conn m) as [g|] eqn:Hconn.
  - rewrite (connect_existing E m w g Hconn).
    rewrite (hql_query_connected E query p m w g Hconn).
    intros H; inversion H; subst.
    split; [eauto|]. split; [|discriminate].
    intros g0 Hg0. inversion Hg0; subst. repeat split. exact Hconn.
  - rewrite (connect_fresh E m w Hconn).
    destruct (server_accepts E _ _ _ _ _).
    + rewrite hql_query_connected with (g := mkgateway (next_id w)
        (USERNAME m) (PASSWORD m) (HOST m) (PORT m)) by reflexivity.
      intros H; inversion H; subst.
      split; [eexists; reflexivity|]. split; [discriminate|].
      intros _. eexists. repeat split.
    + intros H; inversion H; subst.
      split; [eexists; reflexivity|]. split; [discriminate|].
      intros _. eexists. repeat split.
Qed.

Lemma hql_query_leaves_handle_witness :
  let m := mkmanager None PNone (PStr "omero.lab.example") (PInt 4064)
                     (PStr "ada") (PStr "s3cret") in
  let out1 := hql_query office_env "select w.id from Well w" None
                (m, office_world) in
  let m1 := fst (snd out1) in
  let w1 := snd (snd out1) in
  let out2 := hql_query office_env "select p.id from Plate p" None
                (m1, w1) in
  (conn m = None ->
   exists g',
     conn m1 = Some g'
     /\ gateway_id g' = next_id office_world
     /\ next_id w1 = S (next_id office_world))
  /\ (forall g, conn m1 = Some g ->
                fst (snd out2) = m1 /\ conn (fst (snd out2)) = Some g
                /\ next_id (snd (snd out2)) = next_id w1).
Proof.
  intros m out1 m1 w1 out2. split.
  - apply (hql_query_leaves_handle office_env "select w.id from Well w"
             None m office_world (fst out1) m1 w1).
    reflexivity.
  - apply (hql_query_leaves_handle office_env "select p.id from Plate p"
             None m1 w1 (fst out2) (fst (snd out2)) (snd (snd out2))).
    reflexivity.
Defined.

(** ** From construction to the first connect *)

(** X13. A manager built from the session store logs in by session only:
    its first [connect] hands the gateway the store's username, host and
    port with no password, and the store's session id. *)
Theorem session_login_sends_no_password :
  forall (E : env) (w : world) (h u s p : pyval),
    get_current E = (h, u, s, p) ->
    s <> PNone ->
    exists m r st',
      new E None w = (Return m, w)
      /\ connect E (m, w) = (r, st')
      /\ trace (snd st')
         = (trace w ++ [BlitzGateway_call (next_id w) u PNone h p;
                        gateway_connect_call (next_id w) s])%list.
Proof.
  intros E w h u s p Hcur Hs.
  exists (mkmanager None s h p u PNone).
  destruct (connect E (mkmanager None s h p u PNone, w)) as [r st'] eqn:Hrun.
  exists r, st'.
  split; [now apply session_store_takes_precedence_holds|].
  split; [reflexivity|].
  rewrite connect_fresh in Hrun by reflexivity. simpl in Hrun.
  destruct (server_accepts E u PNone h p s);
    inversion Hrun; subst; reflexivity.
Qed.

Lemma session_login_sends_no_password_witness :
  exists m r st',
    new lab_env None lab_world = (Return m, lab_world)
    /\ connect lab_env (m, lab_world) = (r, st')
    /\ trace (snd st')
       = (trace lab_world
          ++ [BlitzGateway_call (next_id lab_world) (PStr "ada") PNone
                (PStr "omero.lab.example") (PStr "4064");
              gateway_connect_call (next_id lab_world)
                (PStr "c0ffee-51")])%list.
Proof.
  apply (session_login_sends_no_password lab_env lab_world).
  - reflexivity.
  - discriminate.
Defined.

(** X14. A manager built from a configuration file logs in by password
    only: its first [connect] hands the gateway the file's username,
    password, host and port, and [None] as session id, even when the
    session store held a host or a username. *)
Theorem config_login_sends_no_session :
  forall (E : env) (w : world) (config_file : option string) (f : file)
         (config : ini) (h u pw : string) (p : Z),
    uses_config_file E config_file = true ->
    fs w (config_path E config_file) = Some f ->
    is_regular f = true ->
    Z.land (st_mode f) 63 = 0 ->
    parse_ini E (data f) = Some config ->
    read_credentials E config = Return (h, p, u, pw) ->
    exists m w1 r st',
      new E config_file w = (Return m, w1)
      /\ connect E (m, w1) = (r, st')
      /\ trace (snd st')
         = (trace w1
            ++ [BlitzGateway_call (next_id w) (PStr u) (PStr pw) (PStr h)
                  (PInt p);
                gateway_connect_call (next_id w) PNone])%list.
Proof.
  intros E w config_file f config h u pw p Huse Hfs Hreg Hmode Hparse Hread.
  rewrite (init_reaches_read E w config_file f Huse Hfs Hreg Hmode).
  rewrite Hparse, Hread.
  do 2 eexists.
  match goal with
  | |- exists r st', _ /\ connect E ?st = _ /\ _ =>
      destruct (connect E st) as [r st'] eqn:Hrun; exists r, st'
  end.
  split; [reflexivity|]. split; [reflexivity|].
  rewrite connect_fresh in Hrun by reflexivity. simpl in Hrun.
  destruct (server_accepts E _ _ _ _ _);
    inversion Hrun; subst; reflexivity.
Qed.

Lemma config_login_sends_no_session_witness :
  exists m w1 r st',
    new office_env None office_world = (Return m, w1)
    /\ connect office_env (m, w1) = (r, st')
    /\ trace (snd st')
       = (trace w1
          ++ [BlitzGateway_call (next_id office_world) (PStr "ada")
                (PStr "s3cret") (PStr "omero.lab.example") (PInt 4064);
              gateway_connect_call (next_id office_world) PNone])%list.
Proof.
  apply (config_login_sends_no_session office_env office_world None
           (mkfile true 33152 "credentials") office_ini);
    reflexivity.
Defined.

(** ** Further properties of write_csv *)

Lemma writerow_raises (filename : string) (row : list pyval) (w : world)
  (e : exn) (w' : world) :
  writerow filename row w = (Raise e, w') ->
  record_of row = Raise e /\ w' = w /\ exists msg, e = CsvError msg.
Proof.
  unfold writerow, record_of.
  destruct (join_fields EmptyString 0 (List.length row) row) as [rec|e']
    eqn:Hrec.
  - unfold file_write, modify. discriminate.
  - unfold raise. intros H; inversion H; subst.
    repeat split. eapply join_fields_raises; eassumption.
Qed.

Lemma writerows_raises (filename : string) (rows : list (list pyval)) :
  forall (w : world) (e : exn) (w' : world),
    writerows filename rows w = (Raise e, w') ->
    exists msg, e = CsvError msg.
Proof.
  unfold writerows.
  induction rows as [|row rows IH]; intros w e w'; simpl.
  - unfold ret. discriminate.
  - unfold bind.
    destruct (writerow filename row w) as [[[]|e1] w1] eqn:Hrow.
    + apply IH.
    + intros H; inversion H; subst.
      now destruct (writerow_raises _ _ _ _ _ Hrow) as (_ & _ & Hmsg).
Qed.

(** What [write_csv] does once the length check has passed. *)
Lemma write_csv_checked (rows : list (list pyval)) (filename : string)
  (header : option (list pyval)) (w : world) :
  header_fits header rows ->
  write_csv rows filename header w
  = match open_wb filename w with
    | (Return _, w0) =>
        match header with
        | Some h =>
            match writerow filename h w0 with
            | (Return _, w1) => writerows filename rows w1
            | (Raise e, w1) => (Raise e, w1)
            end
        | None => writerows filename rows w0
        end
    | (Raise e, w0) => (Raise e, w0)
    end.
Proof.
  intros Hfits. unfold write_csv.
  destruct header as [h|].
  - rewrite (header_check_passes rows h Hfits).
    unfold bind, when, ret.
    destruct (open_wb filename w) as [[[]|e] w0]; reflexivity.
  - unfold bind, ret.
    destruct (open_wb filename w) as [[[]|e] w0]; reflexivity.
Qed.

Lemma write_csv_checked_raises (rows : list (list pyval)) (filename : string)
  (header : option (list pyval)) (w : world) (e : exn) (w' : world) :
  header_fits header rows ->
  write_csv rows filename header w = (Raise e, w') ->
  forall msg, e <> ValueError msg.
Proof.
  intros Hfits. rewrite (write_csv_checked rows filename header w Hfits).
  destruct (open_wb filename w) as [[[]|e0] w0] eqn:Hopen.
  - destruct header as [h|].
    + destruct (writerow filename h w0) as [[[]|e1] w1] eqn:Hrow.
      * intros Hrows msg.
        destruct (writerows_raises _ _ _ _ _ Hrows) as (msg' & ->).
        discriminate.
      * intros H msg; inversion H; subst.
        destruct (writerow_raises _ _ _ _ _ Hrow) as (_ & _ & msg' & ->).
        discriminate.
    + intros Hrows msg.
      destruct (writerows_raises _ _ _ _ _ Hrows) as (msg' & ->).
      discriminate.
  - intros H msg; inversion H; subst.
    destruct (open_wb_raises _ _ _ _ Hopen) as (_ & [->| ->]); discriminate.
Qed.

(** X15. [write_csv] raises [ValueError] exactly when a header is given,
    there is a first row, and their lengths differ: without a header, with
    no rows, or with a first row of the header's length it never does,
    whatever the lengths of the later rows. *)
Theorem write_csv_value_error_iff :
  forall (rows : list (list pyval)) (filename : string)
         (header : option (list pyval)) (w : world),
    (exists msg,
        fst (write_csv rows filename header w) = Raise (ValueError msg))
    <-> (exists h row rest,
            header = Some h /\ rows = row :: rest
            /\ List.length row <> List.length h).
Proof.
  intros rows filename header w. split.
  - intros [msg Hraise].
    assert (Hdec : header_fits header rows
                   \/ exists h row rest,
                        header = Some h /\ rows = row :: rest
                        /\ List.length row <> List.length h).
    { destruct header as [h|]; [|left; exact I].
      destruct rows as [|row rest]; [left; exact I|].
      destruct (Nat.eq_dec (List.length row) (List.length h)) as [Heq|Hne].
      - left. exact Heq.
      - right. now exists h, row, rest. }
    destruct Hdec as [Hfits|Hbad]; [|exact Hbad].
    exfalso.
    destruct (write_csv rows filename header w) as [r w'] eqn:Hrun.
    simpl in Hraise. subst r.
    exact (write_csv_checked_raises _ _ _ _ _ _ Hfits Hrun msg eq_refl).
  - intros (h & row & rest & -> & -> & Hne).
    exists header_message.
    apply Nat.eqb_neq in Hne.
    unfold write_csv. simpl. rewrite Hne. reflexivity.
Qed.

Lemma writerows_stops (filename : string) (done : list (list pyval)) :
  forall (bad : list pyval) (rest : list (list pyval)) (e : exn)
         (text : string) (w : world),
    forallb plain_row done = true ->
    record_of bad = Raise e ->
    file_data w filename = Some text ->
    exists w',
      writerows filename (done ++ bad :: rest) w = (Raise e, w')
      /\ file_data w' filename = Some (text ++ csv_text done)
      /\ same_but filename w w'.
Proof.
  induction done as [|row done IH]; intros bad rest e text w Hdone Hbad Hdata.
  - exists w. simpl. unfold writerows. simpl. unfold bind, writerow.
    unfold record_of in Hbad. rewrite Hbad. unfold raise.
    rewrite append_nil_r.
    split; [reflexivity|]. split; [exact Hdata|apply same_but_refl].
  - simpl in Hdone. apply andb_prop in Hdone. destruct Hdone as [Hrow Hdone].
    destruct (writerow_plain filename text row w Hrow Hdata)
      as (w1 & Hrun1 & Hdata1 & Hsame1).
    destruct (IH bad rest e (text ++ csv_line row) w1 Hdone Hbad Hdata1)
      as (w2 & Hrun2 & Hdata2 & Hsame2).
    exists w2. split; [|split].
    + unfold writerows in *. simpl. unfold bind. now rewrite Hrun1.
    + rewrite Hdata2. unfold csv_text. simpl. now rewrite append_assoc.
    + eapply same_but_trans; eassumption.
Qed.

(** X16. When the target can be opened for writing and the writer
    rejects a row, the rows before it (all writable) have already gone
    out: [write_csv] raises the writer's error and leaves at the target
    path the header line and the lines of the rows before the rejected
    one, in place of whatever the file held. *)
Theorem write_csv_stops_at_rejected_row :
  forall (done : list (list pyval)) (bad : list pyval)
         (rest : list (list pyval)) (filename : string)
         (header : option (list pyval)) (e : exn) (w : world),
    opens_wb w filename = true ->
    header_fits header (done ++ bad :: rest) ->
    forallb plain_row (lines_of header done) = true ->
    record_of bad = Raise e ->
    exists w',
      write_csv (done ++ bad :: rest) filename header w = (Raise e, w')
      /\ file_data w' filename = Some (csv_text (lines_of header done))
      /\ same_streams w w'.
Proof.
  intros done bad rest filename header e w Hopens Hfits Hplain Hbad.
  destruct (open_wb_truncates filename w Hopens)
    as (w0 & Hopen & Hdata0 & Hsame0).
  rewrite (write_csv_checked _ filename header w Hfits), Hopen.
  destruct header as [h|]; simpl in Hplain.
  - apply andb_prop in Hplain. destruct Hplain as [Hh Hdone].
    destruct (writerow_plain filename EmptyString h w0 Hh Hdata0)
      as (w1 & Hrun1 & Hdata1 & Hsame1).
    destruct (writerows_stops filename done bad rest e _ w1 Hdone Hbad Hdata1)
      as (w2 & Hrun2 & Hdata2 & Hsame2).
    exists w2. rewrite Hrun1. split; [exact Hrun2|]. split; [exact Hdata2|].
    apply (same_but_streams filename).
    eapply same_but_trans; [exact Hsame0|].
    eapply same_but_trans; eassumption.
  - destruct (writerows_stops filename done bad rest e _ w0 Hplain Hbad
                Hdata0)
      as (w2 & Hrun2 & Hdata2 & Hsame2).
    exists w2. split; [exact Hrun2|]. split; [exact Hdata2|].
    apply (same_but_streams filename).
    eapply same_but_trans; eassumption.
Qed.

Lemma write_csv_stops_at_rejected_row_witness :
  exists w',
    write_csv ([[PStr "B7"; PInt 12]]
               ++ [PStr "C1, edge"; PInt 3] :: [[PStr "C2"; PInt 5]])
              "/home/ada/old.csv"
              (Some [PStr "well"; PStr "count"]) bench_world
    = (Raise (CsvError "need to escape, but no escapechar set"), w')
    /\ file_data w' "/home/ada/old.csv"
       = Some (csv_text [[PStr "well"; PStr "count"]; [PStr "B7"; PInt 12]])
    /\ same_streams bench_world w'.
Proof.
  apply (write_csv_stops_at_rejected_row [[PStr "B7"; PInt 12]]
           [PStr "C1, edge"; PInt 3] [[PStr "C2"; PInt 5]]
           "/home/ada/old.csv" (Some [PStr "well"; PStr "count"])
           (CsvError "need to escape, but no escapechar set") bench_world);
    reflexivity.
Defined.

Lemma write_csv_value_error_iff_witness :
  exists msg,
    fst (write_csv [[PInt 1; PInt 2]; [PInt 3]] "wells.csv"
           (Some [PStr "a"]) lab_world)
    = Raise (ValueError msg).
Proof.
  apply (proj2 (write_csv_value_error_iff [[PInt 1; PInt 2]; [PInt 3]]
                  "wells.csv" (Some [PStr "a"]) lab_world)).
  exists [PStr "a"], [PInt 1; PInt 2], [[PInt 3]].
  repeat split. simpl. lia.
Defined.

Lemma occurrences_app (c : ascii) (s1 s2 : string) :
  occurrences c (s1 ++ s2) = (occurrences c s1 + occurrences c s2)%nat.
Proof.
  induction s1 as [|c1 s1 IH]; simpl; [reflexivity|].
  rewrite IH. lia.
Qed.

Lemma occurrences_delimiter (c : ascii) :
  occurrences c (String delimiter EmptyString)
  = if Ascii.eqb c delimiter then 1%nat else 0%nat.
Proof.
  change (occurrences c (String delimiter EmptyString))
    with ((if Ascii.eqb delimiter c then 1 else 0) + 0)%nat.
  rewrite (Ascii.eqb_sym delimiter c).
  destruct (Ascii.eqb c delimiter); reflexivity.
Qed.

Lemma join_append_data_clean (field copied : string) (c : ascii) :
  join_append_data field = Return copied ->
  want_escape c = true ->
  occurrences c copied = 0%nat.
Proof.
  revert copied.
  induction field as [|c1 field IH]; intros copied; simpl.
  - intros H; inversion H. reflexivity.
  - destruct (Ascii.eqb c1 NUL); [intros H; inversion H; reflexivity|].
    destruct (want_escape c1) eqn:Hc1; [discriminate|].
    destruct (join_append_data field) as [rest|]; [|discriminate].
    intros H Hc; inversion H; subst. simpl.
    rewrite (IH rest eq_refl Hc).
    destruct (Ascii.eqb_spec c1 c) as [->|_]; [congruence|reflexivity].
Qed.

Lemma join_fields_counts (seq : list pyval) :
  forall (rec rec' : string) (num_fields len : nat) (c : ascii),
    join_fields rec num_fields len seq = Return rec' ->
    want_escape c = true ->
    occurrences c rec'
    = (occurrences c rec
       + if Ascii.eqb c delimiter then separators num_fields seq else 0)%nat.
Proof.
  induction seq as [|field seq IH]; intros rec rec' num_fields len c; simpl.
  - intros H _; inversion H; subst. destruct (Ascii.eqb c delimiter); lia.
  - destruct (join_append_data (field_str field)) as [copied|] eqn:Hcopy;
      [|discriminate].
    destruct ((String.length copied =? 0)%nat && (len =? 1)%nat);
      [discriminate|].
    intros Hrun Hc.
    rewrite (IH _ _ _ _ c Hrun Hc).
    rewrite !occurrences_app, (join_append_data_clean _ _ c Hcopy Hc).
    destruct (0 <? num_fields)%nat.
    + rewrite occurrences_delimiter.
      destruct (Ascii.eqb c delimiter); lia.
    + simpl. destruct (Ascii.eqb c delimiter); lia.
Qed.

Lemma separators_length (seq : list pyval) :
  separators 0 seq = Nat.pred (List.length seq)
  /\ forall n, separators (S n) seq = List.length seq.
Proof.
  induction seq as [|field seq [_ IH]]; [split; reflexivity|].
  split; simpl; [apply IH|intros n; now rewrite IH].
Qed.

Lemma writerow_returns (filename text : string) (row : list pyval)
  (w w' : world) :
  writerow filename row w = (Return tt, w') ->
  file_data w filename = Some text ->
  exists rec,
    record_of row = Return rec
    /\ file_data w' filename = Some (text ++ rec ++ lineterminator).
Proof.
  unfold writerow, record_of.
  destruct (join_fields EmptyString 0 (List.length row) row) as [rec|e];
    [|unfold raise; discriminate].
  intros Hrun Hdata.
  destruct (file_write_appends filename text (rec ++ lineterminator) w Hdata)
    as (w1 & Hrun1 & Hdata1 & _).
  rewrite Hrun1 in Hrun. inversion Hrun; subst. eauto.
Qed.

(** What one accepted row adds to the counts of the characters that would
    need escaping. *)
Lemma writerow_counts (filename text : string) (row : list pyval)
  (w w' : world) :
  writerow filename row w = (Return tt, w') ->
  file_data w filename = Some text ->
  exists text',
    file_data w' filename = Some text'
    /\ occurrences quotechar text' = occurrences quotechar text
    /\ occurrences LF text' = S (occurrences LF text)
    /\ occurrences delimiter text'
       = (occurrences delimiter text + Nat.pred (List.length row))%nat.
Proof.
  intros Hrun Hdata.
  destruct (writerow_returns filename text row w w' Hrun Hdata)
    as (rec & Hrec & Hdata').
  exists (text ++ rec ++ lineterminator). split; [exact Hdata'|].
  unfold record_of in Hrec.
  rewrite !occurrences_app.
  rewrite (join_fields_counts _ _ _ _ _ quotechar Hrec eq_refl).
  rewrite (join_fields_counts _ _ _ _ _ LF Hrec eq_refl).
  rewrite (join_fields_counts _ _ _ _ _ delimiter Hrec eq_refl).
  rewrite (proj1 (separators_length row)).
  simpl. repeat split; lia.
Qed.

Lemma writerows_counts (filename : string) (rows : list (list pyval)) :
  forall (text : string) (w w' : world),
    writerows filename rows w = (Return tt, w') ->
    file_data w filename = Some text ->
    exists text',
      file_data w' filename = Some text'
      /\ occurrences quotechar text' = occurrences quotechar text
      /\ occurrences LF text' = (occurrences LF text + List.length rows)%nat
      /\ occurrences delimiter text'
         = (occurrences delimiter text + separating_commas rows)%nat.
Proof.
  unfold writerows, separating_commas.
  induction rows as [|row rows IH]; intros text w w'; simpl.
  - unfold ret. intros H Hdata; inversion H; subst.
    exists text. repeat split; try lia. exact Hdata.
  - unfold bind.
    destruct (writerow filename row w) as [[[]|e] w1] eqn:Hrow;
      [|discriminate].
    intros Hrows Hdata.
    destruct (writerow_counts filename text row w w1 Hrow Hdata)
      as (text1 & Hdata1 & Hq1 & Hl1 & Hd1).
    destruct (IH text1 w1 w' Hrows Hdata1)
      as (text2 & Hdata2 & Hq2 & Hl2 & Hd2).
    exists text2. split; [exact Hdata2|]. repeat split; lia.
Qed.

(** X17. Whenever [write_csv] returns, the file it leaves holds no double
    quote, one line feed per line written (the header, when given, and each
    row), and as many commas as separate the fields of those lines: no
    field was quoted and no field brought in a comma or a line feed of its
    own. *)
Theorem write_csv_output_is_unquoted :
  forall (rows : list (list pyval)) (filename : string)
         (header : option (list pyval)) (w w' : world),
    write_csv rows filename header w = (Return tt, w') ->
    exists text,
      file_data w' filename = Some text
      /\ occurrences quotechar text = 0%nat
      /\ occurrences LF text = List.length (lines_of header rows)
      /\ occurrences delimiter text
         = separating_commas (lines_of header rows).
Proof.
  intros rows filename header w w' Hrun.
  assert (Hopens : opens_wb w filename = true).
  { revert Hrun. unfold write_csv, bind.
    destruct header as [h|].
    - destruct ((0 <? List.length rows)%nat
                && negb (List.length (hd [] rows) =? List.length h)%nat);
        [discriminate|].
      unfold when, ret.
      destruct (open_wb filename w) as [[[]|e] w0] eqn:Hopen;
        [|discriminate].
      intros _. eapply open_wb_returns; eassumption.
    - unfold ret.
      destruct (open_wb filename w) as [[[]|e] w0] eqn:Hopen;
        [|discriminate].
      intros _. eapply open_wb_returns; eassumption. }
  destruct (open_wb_truncates filename w Hopens)
    as (w0 & Hopen & Hdata0 & _).
  revert Hrun. unfold write_csv.
  destruct header as [h|].
  - destruct ((0 <? List.length rows)%nat
              && negb (List.length (hd [] rows) =? List.length h)%nat);
      [discriminate|].
    unfold bind, when, ret. rewrite Hopen.
    destruct (writerow filename h w0) as [[[]|e] w1] eqn:Hrow;
      [|discriminate].
    intros Hrows.
    destruct (writerow_counts filename _ h w0 w1 Hrow Hdata0)
      as (text1 & Hdata1 & Hq1 & Hl1 & Hd1).
    destruct (writerows_counts filename rows text1 w1 w' Hrows Hdata1)
      as (text2 & Hdata2 & Hq2 & Hl2 & Hd2).
    exists text2. split; [exact Hdata2|].
    unfold separating_commas in *. simpl in *. repeat split; lia.
  - unfold bind, ret. rewrite Hopen. intros Hrows.
    destruct (writerows_counts filename rows _ w0 w' Hrows Hdata0)
      as (text2 & Hdata2 & Hq2 & Hl2 & Hd2).
    exists text2. split; [exact Hdata2|].
    simpl in *. repeat split; lia.
Qed.

Lemma write_csv_output_is_unquoted_witness :
  let rows := [[PStr "B7"; PInt 12; PNone]; []; [PStr "C1"]] in
  let w' := snd (write_csv rows "wells.csv" None bench_world) in
  exists text,
    file_data w' "wells.csv" = Some text
    /\ occurrences quotechar text = 0%nat
    /\ occurrences LF text = List.length (lines_of None rows)
    /\ occurrences delimiter text = separating_commas (lines_of None rows).
Proof.
  intros rows w'.
  apply (write_csv_output_is_unquoted rows "wells.csv" None bench_world w').
  reflexivity.
Defined.

(** ** Further properties of well_from_row_col *)

Lemma chr_code (i : Z) :
  0 <= i < 256 ->
  exists c,
    chr i = Return (String c EmptyString) /\ Z.of_N (N_of_ascii c) = i.
Proof.
  intros Hi. unfold chr.
  replace ((0 <=? i) && (i <? 256)) with true by lia.
  eexists. split; [reflexivity|].
  rewrite N_ascii_embedding by lia. lia.
Qed.

Lemma chr_out_of_range (i : Z) :
  - 2 ^ 31 <= i < 0 \/ 256 <= i < 2 ^ 31 ->
  chr i = Raise (ValueError "chr() arg not in range(256)").
Proof.
  intros Hi. unfold chr, sys_maxint.
  replace ((0 <=? i) && (i <? 256)) with false by lia.
  now replace ((- (2 ^ 63 - 1) - 1 <=? i) && (i <=? 2 ^ 63 - 1))
    with true by lia.
Qed.

Lemma chr_overflow (i : Z) :
  i < - 2 ^ 63 \/ 2 ^ 63 <= i ->
  exists msg, chr i = Raise (OverflowError msg).
Proof.
  intros Hi. unfold chr, sys_maxint.
  replace ((0 <=? i) && (i <? 256)) with false by lia.
  replace ((- (2 ^ 63 - 1) - 1 <=? i) && (i <=? 2 ^ 63 - 1))
    with false by lia.
  eauto.
Qed.

Lemma chr_returns (i : Z) (s : string) :
  chr i = Return s -> 0 <= i < 256.
Proof.
  unfold chr.
  destruct ((0 <=? i) && (i <? 256)) eqn:Hi; [lia|].
  destruct ((- sys_maxint - 1 <=? i) && (i <=? sys_maxint)); discriminate.
Qed.

Lemma uppercase_codes (c : ascii) :
  In c (list_ascii_of_string uppercase) ->
  65 <= Z.of_N (N_of_ascii c) <= 90.
Proof.
  unfold uppercase. simpl.
  intros H.
  repeat (destruct H as [<-|H]; [vm_compute; split; discriminate|]).
  contradiction.
Qed.

(** X18. On integer arguments, [well_from_row_col] answers exactly for
    rows from -65 to 190, where the first character of the label is the
    one with code 65 + row, so that a row outside 0..25 but within that
    range silently gives a label that does not start with a letter of
    A..Z. For the other rows [chr] raises: [ValueError] when 65 + row fits
    a 32-bit C [long], [OverflowError] when it does not fit a 64-bit one
    (in between, the exception is the one or the other with the width of
    the platform's [long]). *)
Theorem well_from_row_col_range :
  forall (row column : Z),
    (-65 <= row <= 190 ->
     exists c digits,
       well_from_row_col row column = Return (String c digits)
       /\ Z.of_N (N_of_ascii c) = 65 + row
       /\ (row < 0 \/ 25 < row ->
           ~ In c (list_ascii_of_string uppercase)))
    /\ ((exists label, well_from_row_col row column = Return label) ->
        -65 <= row <= 190)
    /\ (- 2 ^ 31 <= 65 + row < 0 \/ 256 <= 65 + row < 2 ^ 31 ->
        well_from_row_col row column
        = Raise (ValueError "chr() arg not in range(256)"))
    /\ (65 + row < - 2 ^ 63 \/ 2 ^ 63 <= 65 + row ->
        exists msg,
          well_from_row_col row column = Raise (OverflowError msg)).
Proof.
  intros row column. unfold well_from_row_col.
  split; [|split; [|split]].
  - intros Hrow.
    destruct (chr_code (65 + row)) as (c & Hchr & Hcode); [lia|].
    rewrite Hchr. exists c, (str_of_int (column + 1)).
    split; [reflexivity|]. split; [exact Hcode|].
    intros Hout Hin. apply uppercase_codes in Hin. lia.
  - intros [label Hlabel].
    destruct (chr (65 + row)) as [letter|e] eqn:Hchr; [|discriminate].
    apply chr_returns in Hchr. lia.
  - intros Hrow. now rewrite chr_out_of_range.
  - intros Hrow. destruct (chr_overflow (65 + row) Hrow) as (msg & ->).
    eauto.
Qed.

Lemma well_from_row_col_range_witness :
  (exists c digits,
      well_from_row_col 26 4 = Return (String c digits)
      /\ Z.of_N (N_of_ascii c) = 65 + 26
      /\ (26 < 0 \/ 25 < 26 -> ~ In c (list_ascii_of_string uppercase)))
  /\ -65 <= 190 <= 190
  /\ well_from_row_col 191 0
     = Raise (ValueError "chr() arg not in range(256)")
  /\ exists msg,
       well_from_row_col (2 ^ 63) 0 = Raise (OverflowError msg).
Proof.
  split; [|split; [|split]].
  - apply (proj1 (well_from_row_col_range 26 4)). lia.
  - apply (proj1 (proj2 (well_from_row_col_range 190 7))).
    eexists. reflexivity.
  - apply (proj1 (proj2 (proj2 (well_from_row_col_range 191 0)))). lia.
  - apply (proj2 (proj2 (proj2 (well_from_row_col_range (2 ^ 63) 0)))). lia.
Defined.

Lemma str_of_int_injective (z1 z2 : Z) :
  str_of_int z1 = str_of_int z2 -> z1 = z2.
Proof.
  intros H.
  assert (H' : Some z1 = Some z2).
  { rewrite <- (str_of_int_reads_back z1), <- (str_of_int_reads_back z2).
    now rewrite H. }
  now inversion H'.
Qed.

(** X19. On integer arguments, labels identify wells: two (row, column)
    pairs of integers for which [well_from_row_col] returns the same label
    are the same pair. (The code truncates a non-integer argument, so this
    is a property of integer indices only.) *)
Theorem well_from_row_col_injective :
  forall (row1 column1 row2 column2 : Z) (label : string),
    well_from_row_col row1 column1 = Return label ->
    well_from_row_col row2 column2 = Return label ->
    row1 = row2 /\ column1 = column2.
Proof.
  intros row1 column1 row2 column2 label.
  unfold well_from_row_col.
  destruct (chr (65 + row1)) as [l1|] eqn:H1; [|discriminate].
  destruct (chr (65 + row2)) as [l2|] eqn:H2; [|discriminate].
  pose proof (chr_returns _ _ H1) as Hr1.
  pose proof (chr_returns _ _ H2) as Hr2.
  destruct (chr_code (65 + row1) Hr1) as (c1 & Hc1 & Hcode1).
  destruct (chr_code (65 + row2) Hr2) as (c2 & Hc2 & Hcode2).
  rewrite Hc1 in H1. rewrite Hc2 in H2.
  inversion H1; subst l1. inversion H2; subst l2.
  simpl. intros Hl1 Hl2. rewrite <- Hl2 in Hl1.
  inversion Hl1 as [[Hc Hdigits]]. subst c2.
  apply str_of_int_injective in Hdigits. lia.
Qed.

Lemma well_from_row_col_injective_witness :
  3 = 3 /\ 2 = 2.
Proof.
  apply (well_from_row_col_injective 3 2 3 2 "D3"); reflexivity.
Defined.

(** ** The handle and the gateways left open *)

Lemma live_gateways_app (events more : list event) :
  live_gateways (events ++ more)
  = fold_left track more (live_gateways events).
Proof. unfold live_gateways. apply fold_left_app. Qed.

Lemma track_fs_events (events : list event) :
  forall live,
    forallb is_fs_event events = true ->
    fold_left track events live = live.
Proof.
  induction events as [|e events IH]; intros live; simpl; [reflexivity|].
  intros H. apply andb_prop in H. destruct H as [He Hevents].
  rewrite <- (IH live Hevents) at 2.
  destruct e; simpl in He; try discriminate; reflexivity.
Qed.

Lemma connect_accounts (E : env) st r st' :
  handle_accounts_for_gateways st ->
  connect E st = (r, st') ->
  handle_accounts_for_gateways st'.
Proof.
  destruct st as [m w]. unfold handle_accounts_for_gateways. simpl.
  destruct (conn m) as [g|] eqn:Hconn; intros Hinv.
  - rewrite (connect_existing E m w g Hconn).
    intros H; inversion H; subst. simpl. now rewrite Hconn.
  - rewrite (connect_fresh E m w Hconn).
    destruct (server_accepts E _ _ _ _ _);
      intros H; inversion H; subst; simpl;
      rewrite live_gateways_app, Hinv; reflexivity.
Qed.

Lemma disconnect_accounts st r st' :
  handle_accounts_for_gateways st ->
  disconnect st = (r, st') ->
  handle_accounts_for_gateways st'.
Proof.
  destruct st as [m w]. unfold handle_accounts_for_gateways, disconnect.
  run_method.
  destruct (conn m) as [g|] eqn:Hconn; simpl; intros Hinv H;
    inversion H; subst; simpl.
  - rewrite live_gateways_app, Hinv. simpl. now rewrite Nat.eqb_refl.
  - now rewrite Hconn.
Qed.

Lemma hql_query_accounts (E : env) query p st r st' :
  handle_accounts_for_gateways st ->
  hql_query E query p st = (r, st') ->
  handle_accounts_for_gateways st'.
Proof.
  intros Hinv. rewrite hql_query_via_connect.
  destruct (connect E st) as [rc [m1 w1]] eqn:Hconnect.
  pose proof (connect_accounts E st rc (m1, w1) Hinv Hconnect) as Hinv1.
  destruct rc as [h|e]; [|intros H; inversion H; subst; exact Hinv1].
  destruct (connect_returns_conn E st h (m1, w1) Hconnect) as (g & -> & Hg).
  simpl in Hg. rewrite (hql_query_connected E query p m1 w1 g Hg).
  intros H; inversion H; subst.
  unfold handle_accounts_for_gateways in *. simpl in *.
  rewrite live_gateways_app, Hinv1. reflexivity.
Qed.

(** X20. Through any use of a manager (construction in a world with no
    gateway open, then [connect], [disconnect], [hql_query] and [__del__]
    in any order and with any outcome), the gateways built and not yet
    closed are exactly the one on the manager: at most one is open, and
    none once the manager holds no handle. *)
Theorem at_most_one_gateway_open :
  forall (E : env) (st : OMEROConnectionManager * world),
    run E st ->
    live_gateways (trace (snd st))
    = match conn (fst st) with
      | Some g => [gateway_id g]
      | None => []
      end.
Proof.
  intros E st Hrun.
  change (handle_accounts_for_gateways st).
  induction Hrun as [config_file w m w' Hlive Hnew
                    | st r st' _ IH Hstep
                    | st r st' _ IH Hstep
                    | query p st r st' _ IH Hstep
                    | st r st' _ IH Hstep].
  - unfold handle_accounts_for_gateways. simpl.
    unfold new in Hnew.
    destruct (__init__ E config_file (blank, w)) as [r0 [m0 w0]] eqn:Hinit.
    destruct (init_passive E config_file w r0 m0 w0 Hinit)
      as (Hconn & _ & _ & _ & (events & Htrace & Hfs) & _).
    destruct r0; inversion Hnew; subst.
    rewrite Hconn, Htrace, live_gateways_app, Hlive.
    now apply track_fs_events.
  - eapply connect_accounts; eassumption.
  - eapply disconnect_accounts; eassumption.
  - eapply hql_query_accounts; eassumption.
  - eapply disconnect_accounts; eassumption.
Qed.

Lemma at_most_one_gateway_open_witness :
  let m := mkmanager None PNone (PStr "omero.lab.example") (PInt 4064)
                     (PStr "ada") (PStr "s3cret") in
  let w := logged (config_file_calls "/home/ada/.omero/config")
             office_world in
  let st1 := snd (hql_query office_env "select w.id from Well w" None
                    (m, w)) in
  let st2 := snd (disconnect st1) in
  let st3 := snd (connect office_env st2) in
  live_gateways (trace (snd st3))
  = match conn (fst st3) with
    | Some g => [gateway_id g]
    | None => []
    end.
Proof.
  intros m w st1 st2 st3.
  apply (at_most_one_gateway_open office_env st3).
  apply (run_connect office_env st2 (fst (connect office_env st2))).
  - apply (run_disconnect office_env st1 (Return tt)).
    + apply (run_hql_query office_env "select w.id from Well w" None (m, w)
               (fst (hql_query office_env "select w.id from Well w" None
                       (m, w)))).
      * apply (run_new office_env None office_world). reflexivity.
        reflexivity.
      * reflexivity.
    + reflexivity.
  - reflexivity.
Defined.
